(** * grxiv: a minimal OpenGL image viewer (Qt)

    A shallow embedding of the widget [ImageGLWidget] and of [main], for the
    two revisions of the program: [grxiv.cpp], which asks the application to
    quit when something fails, and the earlier revision, which reports the
    failure in a message box and carries on. *)

From Stdlib Require Import ZArith List Bool Ascii String Lia.
From Stdlib Require Import Sorting.Sorted Sorting.Permutation.
From Stdlib Require Import Floats.SpecFloat.
Import ListNotations.

Local Open Scope Z_scope.

(** ** C++ [float]: IEEE 754 binary32 *)

Module F32.

Definition prec : Z := 24.
Definition emax : Z := 128.

Definition t := spec_float.

Definition mul : t -> t -> t := SFmul prec emax.
Definition div : t -> t -> t := SFdiv prec emax.
Definition ltb : t -> t -> bool := SFltb.
Definition leb : t -> t -> bool := SFleb.

(** [static_cast<float>(n)] and the implicit conversion of an [int]
    operand: round to nearest, ties to even. *)
Definition of_int (n : Z) : t := binary_normalize prec emax n 0 false.

(** The literals of the source. *)
Definition one : t := S754_finite false 8388608 (-23).       (* 1.0f  *)
Definition c1_1 : t := S754_finite false 9227469 (-23).      (* 1.1f  *)
Definition c0_9 : t := S754_finite false 15099494 (-24).     (* 0.9f  *)
Definition c0_1 : t := S754_finite false 13421773 (-27).     (* 0.1f  *)
Definition c10 : t := S754_finite false 10485760 (-20).      (* 10.0f *)

End F32.

(** [qMin] and [qMax] of <QtGlobal>:
    [qMin(a, b) = (a < b) ? a : b] and [qMax(a, b) = (a < b) ? b : a]. *)
Definition qMin (a b : F32.t) : F32.t := if F32.ltb a b then a else b.
Definition qMax (a b : F32.t) : F32.t := if F32.ltb a b then b else a.

(** [qMax(0.1f, qMin(z, 10.0f))], the clamp of [wheelEvent]. *)
Definition clampZoom (z : F32.t) : F32.t := qMax F32.c0_1 (qMin z F32.c10).

(** ** Collaborators: images, files, the GL context *)

Inductive Format := Format_Decoded | Format_ARGB32.

(** The data of a non-null [QImage]. The pixel payload is kept abstract. *)
Record ImageData := {
  img_width : Z;
  img_height : Z;
  img_format : Format;
  img_pixels : list Z
}.

(** A [QImage] is either null (no data) or holds data. *)
Definition QImage := option ImageData.

Definition isNull (i : QImage) : bool :=
  match i with None => true | Some _ => false end.

(** [QImage::width()] and [QImage::height()] answer 0 for a null image. *)
Definition width (i : QImage) : Z :=
  match i with Some d => img_width d | None => 0 end.
Definition height (i : QImage) : Z :=
  match i with Some d => img_height d | None => 0 end.

Definition convertToFormat (f : Format) (i : QImage) : QImage :=
  match i with
  | Some d => Some {| img_width := img_width d; img_height := img_height d;
                      img_format := f; img_pixels := img_pixels d |}
  | None => None
  end.

Record QFileInfo := {
  fileName : string;
  absoluteFilePath : string
}.

Inductive Filter := NearestMipMapLinear | Linear | LinearMipMapLinear.

Record QOpenGLTexture := {
  tex_id : nat;               (* the GL texture name; meaningful when created *)
  tex_created : bool;         (* isCreated() *)
  tex_source : ImageData;
  tex_min : Filter;
  tex_mag : Filter;
  tex_mipmaps : bool
}.

(** A [QOpenGLShaderProgram] object; only [isLinked()] is observed. *)
Record QOpenGLShaderProgram := { isLinked : bool }.

(** A window title. [TitlePosition name position total] stands for the value
    of [QString("%1 (%2/%3)").arg(name).arg(position).arg(total)], not for a
    text: the calls of [arg] are Qt's, and they also replace a place marker
    that the file name itself holds. *)
Inductive Title :=
| TitleText (s : string)
| TitleFileNameOf (path : string)                       (* QFileInfo(path).fileName() *)
| TitlePosition (name : string) (position total : Z).   (* "%1 (%2/%3)" *)

(** Diagnostics: a [QMessageBox::critical] or a [qDebug] line of the
    reporting revision. *)
Inductive Report :=
| NoImagesInDirectory (path : string)
| InvalidPath (path : string)
| NoPathSpecified
| FailedToLoad (path : string)
| EmptyAfterLoading
| TextureCreationError.

(** What the outside world answers during one call. *)
Record World := {
  (* [QImageReader(path).read()]: the null image when the file cannot be
     read or decoded *)
  readImage : string -> QImage;
  (* does [new QOpenGLTexture(image)] end up created? *)
  textureCreated : ImageData -> bool
}.

(** What the GL set-up of [initializeGL] meets. *)
Record GLSetup := {
  hasContext : bool;
  vertexOk : bool;
  fragmentOk : bool;
  linkOk : bool;
  vboOk : bool;      (* glGenBuffers gave a non-zero VBO *)
  eboOk : bool
}.

(** The two revisions of the program. *)
Inductive Revision :=
| Quitting     (* grxiv.cpp: QApplication::quit() on failure *)
| Reporting.   (* the earlier revision: message box, then return *)

(** ** The widget and its surroundings *)

Record State := {
  (* members of ImageGLWidget *)
  image : QImage;
  shaderProgram : option QOpenGLShaderProgram;
  texture : option QOpenGLTexture;
  zoomLevel : F32.t;
  imageFiles : list QFileInfo;
  currentImageIndex : Z;
  (* the GL context: names of the live texture objects, next fresh name *)
  glTextures : list nat;
  glNext : nat;
  (* the application and the window *)
  quitRequested : bool;      (* QApplication::quit() was called *)
  windowClosed : bool;       (* window()->close() was called *)
  windowTitle : Title;
  reports : list Report
}.

Definition set_image (v : QImage) (s : State) : State :=
  {| image := v; shaderProgram := shaderProgram s; texture := texture s;
     zoomLevel := zoomLevel s; imageFiles := imageFiles s;
     currentImageIndex := currentImageIndex s; glTextures := glTextures s;
     glNext := glNext s; quitRequested := quitRequested s;
     windowClosed := windowClosed s; windowTitle := windowTitle s;
     reports := reports s |}.

Definition set_shaderProgram (v : option QOpenGLShaderProgram) (s : State) : State :=
  {| image := image s; shaderProgram := v; texture := texture s;
     zoomLevel := zoomLevel s; imageFiles := imageFiles s;
     currentImageIndex := currentImageIndex s; glTextures := glTextures s;
     glNext := glNext s; quitRequested := quitRequested s;
     windowClosed := windowClosed s; windowTitle := windowTitle s;
     reports := reports s |}.

Definition set_texture (v : option QOpenGLTexture) (s : State) : State :=
  {| image := image s; shaderProgram := shaderProgram s; texture := v;
     zoomLevel := zoomLevel s; imageFiles := imageFiles s;
     currentImageIndex := currentImageIndex s; glTextures := glTextures s;
     glNext := glNext s; quitRequested := quitRequested s;
     windowClosed := windowClosed s; windowTitle := windowTitle s;
     reports := reports s |}.

Definition set_zoomLevel (v : F32.t) (s : State) : State :=
  {| image := image s; shaderProgram := shaderProgram s; texture := texture s;
     zoomLevel := v; imageFiles := imageFiles s;
     currentImageIndex := currentImageIndex s; glTextures := glTextures s;
     glNext := glNext s; quitRequested := quitRequested s;
     windowClosed := windowClosed s; windowTitle := windowTitle s;
     reports := reports s |}.

Definition set_currentImageIndex (v : Z) (s : State) : State :=
  {| image := image s; shaderProgram := shaderProgram s; texture := texture s;
     zoomLevel := zoomLevel s; imageFiles := imageFiles s;
     currentImageIndex := v; glTextures := glTextures s;
     glNext := glNext s; quitRequested := quitRequested s;
     windowClosed := windowClosed s; windowTitle := windowTitle s;
     reports := reports s |}.

Definition set_gl (live : list nat) (next : nat) (s : State) : State :=
  {| image := image s; shaderProgram := shaderProgram s; texture := texture s;
     zoomLevel := zoomLevel s; imageFiles := imageFiles s;
     currentImageIndex := currentImageIndex s; glTextures := live;
     glNext := next; quitRequested := quitRequested s;
     windowClosed := windowClosed s; windowTitle := windowTitle s;
     reports := reports s |}.

Definition set_imageFiles (v : list QFileInfo) (s : State) : State :=
  {| image := image s; shaderProgram := shaderProgram s; texture := texture s;
     zoomLevel := zoomLevel s; imageFiles := v;
     currentImageIndex := currentImageIndex s; glTextures := glTextures s;
     glNext := glNext s; quitRequested := quitRequested s;
     windowClosed := windowClosed s; windowTitle := windowTitle s;
     reports := reports s |}.

(** [QApplication::quit()] *)
Definition quit (s : State) : State :=
  {| image := image s; shaderProgram := shaderProgram s; texture := texture s;
     zoomLevel := zoomLevel s; imageFiles := imageFiles s;
     currentImageIndex := currentImageIndex s; glTextures := glTextures s;
     glNext := glNext s; quitRequested := true;
     windowClosed := windowClosed s; windowTitle := windowTitle s;
     reports := reports s |}.

(** [window()->close()] *)
Definition close (s : State) : State :=
  {| image := image s; shaderProgram := shaderProgram s; texture := texture s;
     zoomLevel := zoomLevel s; imageFiles := imageFiles s;
     currentImageIndex := currentImageIndex s; glTextures := glTextures s;
     glNext := glNext s; quitRequested := quitRequested s;
     windowClosed := true; windowTitle := windowTitle s;
     reports := reports s |}.

Definition setWindowTitle (v : Title) (s : State) : State :=
  {| image := image s; shaderProgram := shaderProgram s; texture := texture s;
     zoomLevel := zoomLevel s; imageFiles := imageFiles s;
     currentImageIndex := currentImageIndex s; glTextures := glTextures s;
     glNext := glNext s; quitRequested := quitRequested s;
     windowClosed := windowClosed s; windowTitle := v;
     reports := reports s |}.

Definition report (r : Report) (s : State) : State :=
  {| image := image s; shaderProgram := shaderProgram s; texture := texture s;
     zoomLevel := zoomLevel s; imageFiles := imageFiles s;
     currentImageIndex := currentImageIndex s; glTextures := glTextures s;
     glNext := glNext s; quitRequested := quitRequested s;
     windowClosed := windowClosed s; windowTitle := windowTitle s;
     reports := reports s ++ [r] |}.

(** A failure path: [QApplication::quit()] in grxiv.cpp, a diagnostic in the
    reporting revision. *)
Definition fail (rev : Revision) (r : Report) (s : State) : State :=
  match rev with
  | Quitting => quit s
  | Reporting => report r s
  end.

(** A diagnostic that only the reporting revision prints. *)
Definition debug (rev : Revision) (r : Report) (s : State) : State :=
  match rev with
  | Quitting => s
  | Reporting => report r s
  end.

(** ** updateTexture *)

(** [texture->destroy()], [delete texture]: the GL object goes, if there is
    one. *)
Definition glDelete (t : QOpenGLTexture) (live : list nat) : list nat :=
  if tex_created t then remove Nat.eq_dec (tex_id t) live else live.

(** First half of [updateTexture]:
    [if (texture) { texture->destroy(); delete texture; texture = nullptr; }] *)
Definition releaseTexture (s : State) : State :=
  match texture s with
  | Some t =>
      set_texture None (set_gl (glDelete t (glTextures s)) (glNext s) s)
  | None => s
  end.

(** [new QOpenGLTexture(image)]: creates the GL object, uploads the image and
    generates the mip levels, or ends up not created. *)
Definition newTexture (w : World) (d : ImageData) (s : State)
  : QOpenGLTexture * State :=
  if textureCreated w d then
    ({| tex_id := glNext s; tex_created := true; tex_source := d;
        tex_min := NearestMipMapLinear; tex_mag := Linear;
        tex_mipmaps := true |},
     set_gl (glNext s :: glTextures s) (S (glNext s)) s)
  else
    ({| tex_id := 0; tex_created := false; tex_source := d;
        tex_min := NearestMipMapLinear; tex_mag := Linear;
        tex_mipmaps := false |}, s).

Definition setMinificationFilter (f : Filter) (t : QOpenGLTexture) :=
  {| tex_id := tex_id t; tex_created := tex_created t;
     tex_source := tex_source t; tex_min := f; tex_mag := tex_mag t;
     tex_mipmaps := tex_mipmaps t |}.

Definition setMagnificationFilter (f : Filter) (t : QOpenGLTexture) :=
  {| tex_id := tex_id t; tex_created := tex_created t;
     tex_source := tex_source t; tex_min := tex_min t; tex_mag := f;
     tex_mipmaps := tex_mipmaps t |}.

Definition generateMipMaps (t : QOpenGLTexture) :=
  {| tex_id := tex_id t; tex_created := tex_created t;
     tex_source := tex_source t; tex_min := tex_min t; tex_mag := tex_mag t;
     tex_mipmaps := true |}.

(** Second half of [updateTexture]: [if (!image.isNull()) { ... }] *)
Definition createTexture (rev : Revision) (w : World) (s : State) : State :=
  match image s with
  | Some d =>
      let (t, s1) := newTexture w d s in
      if tex_created t then
        set_texture
          (Some (generateMipMaps
                   (setMagnificationFilter Linear
                      (setMinificationFilter LinearMipMapLinear t)))) s1
      else
        (* delete texture; texture = nullptr; *)
        set_texture None
          (set_gl (glDelete t (glTextures s1)) (glNext s1)
             (debug rev TextureCreationError s1))
  | None => s
  end.

Definition updateTexture (rev : Revision) (w : World) (s : State) : State :=
  createTexture rev w (releaseTexture s).

(** ** loadImage, loadNextImage, loadPreviousImage *)

Definition size (l : list QFileInfo) : Z := Z.of_nat (List.length l).

Definition noFile : QFileInfo :=
  {| fileName := EmptyString; absoluteFilePath := EmptyString |}.

(** [imageFiles[index]], for an index in range *)
Definition at_ (l : list QFileInfo) (index : Z) : QFileInfo :=
  nth (Z.to_nat index) l noFile.

(** [QImage::load(path)]: [*this = QImageReader(path).read(); return !isNull();] *)
Definition QImage_load (w : World) (path : string) : bool * QImage :=
  let i := readImage w path in (negb (isNull i), i).

(** [update()] only schedules a repaint and is left out. *)
Definition loadImage (rev : Revision) (w : World) (index : Z) (s : State)
  : State :=
  if (index <? 0) || (index >=? size (imageFiles s)) then s
  else
    let s := set_currentImageIndex index s in
    let s :=
      match rev with
      | Quitting =>
          setWindowTitle
            (TitlePosition (fileName (at_ (imageFiles s) index)) (index + 1)
               (size (imageFiles s))) s
      | Reporting => s
      end in
    let imagePath := absoluteFilePath (at_ (imageFiles s) index) in
    let (ok, i) := QImage_load w imagePath in
    let s := set_image i s in
    if negb ok then fail rev (FailedToLoad imagePath) s
    else if isNull (image s) then fail rev EmptyAfterLoading s
    else
      let s := set_image (convertToFormat Format_ARGB32 (image s)) s in
      let s := set_zoomLevel F32.one s in
      updateTexture rev w s.

Definition loadNextImage (rev : Revision) (w : World) (s : State) : State :=
  if currentImageIndex s + 1 <? size (imageFiles s)
  then loadImage rev w (currentImageIndex s + 1) s
  else s.

Definition loadPreviousImage (rev : Revision) (w : World) (s : State) : State :=
  if currentImageIndex s - 1 >=? 0
  then loadImage rev w (currentImageIndex s - 1) s
  else s.

(** ** Events *)

Inductive Key := Key_Q | Key_Left | Key_Right | Key_Other.

(** [wheelEvent], on [event->angleDelta().y()] *)
Definition wheelEvent (dy : Z) (s : State) : State :=
  let delta := if dy >? 0 then F32.c1_1 else F32.c0_9 in
  let s := set_zoomLevel (F32.mul (zoomLevel s) delta) s in
  set_zoomLevel (clampZoom (zoomLevel s)) s.

(** [keyPressEvent]; the call of the base class changes nothing here. *)
Definition keyPressEvent (rev : Revision) (w : World) (k : Key) (s : State)
  : State :=
  match k with
  | Key_Q => close s
  | Key_Left => loadPreviousImage rev w s
  | Key_Right => loadNextImage rev w s
  | Key_Other => s
  end.

(** ** paintGL *)

(** [QMatrix4x4], as its four rows. *)
Definition QMatrix4x4 := list (list F32.t).

Definition f0 : F32.t := S754_zero false.

(** A default-constructed matrix is the identity. *)
Definition identity : QMatrix4x4 :=
  [[F32.one; f0; f0; f0]; [f0; F32.one; f0; f0];
   [f0; f0; F32.one; f0]; [f0; f0; f0; F32.one]].

(** [QMatrix4x4::scale(x, y, z)] on a matrix flagged as the identity, the
    only use the program makes of it:
    [m[0][0] *= x; m[1][1] *= y; m[2][2] *= z;] *)
Definition scale (x y z : F32.t) (m : QMatrix4x4) : QMatrix4x4 :=
  match m with
  | [[a; b; c; d]; [e; f; g; h]; [i; j; k; l]; r] =>
      [[F32.mul a x; b; c; d]; [e; F32.mul f y; g; h];
       [i; j; F32.mul k z; l]; r]
  | _ => m
  end.

Definition entry (m : QMatrix4x4) (row col : nat) : F32.t :=
  nth col (nth row m []) S754_nan.

(** The aspect-ratio fit of [paintGL]: the pair [(scaleX, scaleY)]. *)
Definition fitScale (imageW imageH winW winH : Z) : F32.t * F32.t :=
  let imageAspect := F32.div (F32.of_int imageW) (F32.of_int imageH) in
  let windowAspect := F32.div (F32.of_int winW) (F32.of_int winH) in
  let scaleX := F32.one in
  let scaleY := F32.one in
  if F32.ltb windowAspect imageAspect      (* imageAspect > windowAspect *)
  then (scaleX, F32.div windowAspect imageAspect)
  else (F32.div imageAspect windowAspect, scaleY).

Definition viewportTransform (img : QImage) (winW winH : Z) (zoom : F32.t)
  : QMatrix4x4 :=
  let (scaleX, scaleY) := fitScale (width img) (height img) winW winH in
  scale (F32.mul scaleX zoom) (F32.mul scaleY zoom) F32.one identity.

(** What one frame draws. *)
Record Draw := {
  draw_mvp : QMatrix4x4;     (* the uniform "mvp" *)
  draw_texture : nat;        (* the texture bound *)
  draw_indices : Z           (* glDrawElements(GL_TRIANGLES, 6, ...) *)
}.

(** [paintGL] in a window of [winW] x [winH]: [None] when the frame is only
    cleared. The debug line of the reporting revision is not recorded. *)
Definition paintGL (s : State) (winW winH : Z) : option Draw :=
  match texture s, shaderProgram s with
  | Some t, Some p =>
      if negb (tex_created t) || negb (isLinked p) then None
      else
        Some {| draw_mvp := viewportTransform (image s) winW winH (zoomLevel s);
                draw_texture := tex_id t;
                draw_indices := 6 |}
  | _, _ => None
  end.

(** ** initializeGL *)

(** The tail of [initializeGL]: the buffers, then the first image. *)
Definition initializeBuffers (rev : Revision) (g : GLSetup) (w : World)
  (s : State) : State :=
  if negb (vboOk g) then s
  else if negb (eboOk g) then s
  else
    match imageFiles s with
    | [] => s
    | _ :: _ =>
        match rev with
        | Quitting =>
            if isNull (image s) then loadImage rev w 0 s
            else
              updateTexture rev w
                (set_image (convertToFormat Format_ARGB32 (image s)) s)
        | Reporting => loadImage rev w 0 s
        end
    end.

(** [new QOpenGLShaderProgram] does not answer null, so that test of the
    source is not a case here. In grxiv.cpp the three steps all run and their
    results are and-ed; the reporting revision returns at the first failure. *)
Definition initializeGL (rev : Revision) (g : GLSetup) (w : World) (s : State)
  : State :=
  if negb (hasContext g) then s
  else
    match rev with
    | Quitting =>
        let s := set_shaderProgram (Some {| isLinked := linkOk g |}) s in
        let success := vertexOk g && fragmentOk g && linkOk g in
        if negb success then s else initializeBuffers rev g w s
    | Reporting =>
        if negb (vertexOk g) then
          set_shaderProgram (Some {| isLinked := false |}) s
        else if negb (fragmentOk g) then
          set_shaderProgram (Some {| isLinked := false |}) s
        else
          let s := set_shaderProgram (Some {| isLinked := linkOk g |}) s in
          if negb (linkOk g) then s else initializeBuffers rev g w s
    end.

(** ** The file system and [QDir] *)

Local Open Scope string_scope.

(** An entry of a directory. [de_isFile] is [QFileInfo::isFile()] (a regular
    file, or a link to one); [de_hidden] is [QFileInfo::isHidden()] (on Unix,
    a name that begins with a dot). *)
Record DirEntry := {
  de_name : string;
  de_isFile : bool;
  de_hidden : bool
}.

Inductive PathKind :=
| Directory (entries : list DirEntry)
| RegularFile
| Nothing.

Definition FileSystem := string -> PathKind.

Definition toLower (c : ascii) : ascii :=
  let n := N_of_ascii c in
  if ((65 <=? n) && (n <=? 90))%N then ascii_of_N (n + 32) else c.

Definition isStar (c : ascii) : bool := Ascii.eqb c "*".

(** Matching of a name filter: [*] stands for any run of characters, any
    other character of the filters used here for itself; letters match
    without regard to case, since the filter of the directory lacks
    [QDir::CaseSensitive]. *)
Fixpoint wildcardMatch (p s : string) {struct p} : bool :=
  match p with
  | EmptyString => match s with EmptyString => true | _ => false end
  | String c p' =>
      if isStar c then
        (fix star (s : string) : bool :=
           wildcardMatch p' s
           || match s with
              | EmptyString => false
              | String _ s' => star s'
              end) s
      else
        match s with
        | EmptyString => false
        | String d s' => Ascii.eqb (toLower c) (toLower d) && wildcardMatch p' s'
        end
  end.

(** [filters << "*.jpg" << "*.jpeg" << "*.png" << "*.bmp" << "*.gif"] *)
Definition nameFilters : list string :=
  ["*.jpg"; "*.jpeg"; "*.png"; "*.bmp"; "*.gif"].

(** [QDir::Files | QDir::NoDotAndDotDot] with the name filters: files that
    are not hidden and whose name matches one of the filters. *)
Definition listed (e : DirEntry) : bool :=
  de_isFile e && negb (de_hidden e)
  && existsb (fun p => wildcardMatch p (de_name e)) nameFilters.

(** [QDir::Name] without [QDir::IgnoreCase]: by name, in the order of
    [QString::compare]. *)
Fixpoint insertByName (e : DirEntry) (l : list DirEntry) : list DirEntry :=
  match l with
  | [] => [e]
  | x :: l' =>
      if String.leb (de_name e) (de_name x) then e :: l
      else x :: insertByName e l'
  end.

Definition sortByName (l : list DirEntry) : list DirEntry :=
  fold_right insertByName [] l.

Definition infoOf (dir : string) (e : DirEntry) : QFileInfo :=
  {| fileName := de_name e;
     absoluteFilePath := dir ++ "/" ++ de_name e |}.

(** [dir.entryInfoList()] *)
Definition entryInfoList (dir : string) (entries : list DirEntry)
  : list QFileInfo :=
  map (infoOf dir) (sortByName (filter listed entries)).

(** [QFileInfo(path).fileName()]: what follows the last slash. *)
Fixpoint afterLastSlash (acc s : string) : string :=
  match s with
  | EmptyString => acc
  | String c r =>
      if Ascii.eqb c "/" then afterLastSlash r r else afterLastSlash acc r
  end.

Definition fileInfo (path : string) : QFileInfo :=
  {| fileName := afterLastSlash path path; absoluteFilePath := path |}.

(** ** Construction and [main] *)

(** The member initialisers of the two constructors, in a fresh context. *)
Definition fresh (index : Z) (title : Title) : State :=
  {| image := None; shaderProgram := None; texture := None;
     zoomLevel := F32.one; imageFiles := []; currentImageIndex := index;
     glTextures := []; glNext := 1%nat; quitRequested := false;
     windowClosed := false; windowTitle := title; reports := [] |}.

(** [ImageGLWidget(const QString& path)], inside [ImageViewer(path)] *)
Definition ImageGLWidget_ofPath (rev : Revision) (fs : FileSystem) (path : string)
  : State :=
  let title :=
    match rev with
    | Quitting => TitleFileNameOf path
    | Reporting => TitleText " grxiv"
    end in
  let s := fresh (-1) title in
  match fs path with
  | Directory entries =>
      let s := set_imageFiles (entryInfoList path entries) s in
      match imageFiles s with
      | [] => fail rev (NoImagesInDirectory path) s
      | _ :: _ => s
      end
  | RegularFile => set_imageFiles (imageFiles s ++ [fileInfo path]) s
  | Nothing => fail rev (InvalidPath path) s
  end.

(** [ImageGLWidget(const QImage& clipboardImage)] of grxiv.cpp *)
Definition ImageGLWidget_ofImage (clipboardImage : QImage) : State :=
  let s := fresh 0 (TitleText "grxiv") in
  let s := set_image clipboardImage s in
  if isNull (image s) then quit s
  else set_imageFiles (imageFiles s ++ [fileInfo "clipboard_image"]) s.

(** How [main] ends: it returns before any window exists, or it shows the
    window and enters [app.exec()] with the widget in some state. *)
Inductive Outcome :=
| Returned (code : Z) (diagnostics : list Report)
| Shown (s : State).

(** What standard input holds and what [QImageReader] makes of it. *)
Record Stdin := {
  stdinData : list Z;
  canRead : bool;
  readResult : QImage
}.

(** [main], on the positional arguments left by the parser. *)
Definition main (rev : Revision) (fs : FileSystem) (input : Stdin)
  (args : list string) : Outcome :=
  match args with
  | [] =>
      match rev with
      | Quitting =>
          match stdinData input with
          | _ :: _ =>
              if negb (canRead input) then Returned 1 []
              else
                let clipboardImage := readResult input in
                if isNull clipboardImage then Returned 1 []
                else Shown (ImageGLWidget_ofImage clipboardImage)
          | [] => Returned 1 []
          end
      | Reporting => Returned 1 [NoPathSpecified]
      end
  | path :: _ => Shown (ImageGLWidget_ofPath rev fs path)
  end.



(** ** Sessions *)

Inductive Event :=
| Wheel (dy : Z)
| KeyPress (k : Key)
| Paint (winW winH : Z).

Definition step (rev : Revision) (w : World) (e : Event) (s : State) : State :=
  match e with
  | Wheel dy => wheelEvent dy s
  | KeyPress k => keyPressEvent rev w k s
  | Paint _ _ => s
  end.

(** The events of a session, each with what the world answers then. *)
Fixpoint run (rev : Revision) (es : list (World * Event)) (s : State) : State :=
  match es with
  | [] => s
  | (w, e) :: es' => run rev es' (step rev w e s)
  end.

(** The states a session passes through: one the constructor leaves,
    initialised, and then any events. *)
Inductive reachable (rev : Revision) : State -> Prop :=
| reach_path fs path g w :
    reachable rev (initializeGL rev g w (ImageGLWidget_ofPath rev fs path))
| reach_image i g w :
    rev = Quitting -> reachable rev (initializeGL rev g w (ImageGLWidget_ofImage i))
| reach_step w e s :
    reachable rev s -> reachable rev (step rev w e s).

(** ** Teardown *)

(** [~ImageGLWidget()]: [delete texture; delete shaderProgram;]. The
    destructor of [QOpenGLTexture] destroys the GL object, as the first half
    of [updateTexture] does. The two buffers are not part of the state. *)
Definition destructor (s : State) : State :=
  set_shaderProgram None (releaseTexture s).

(** ** Vocabulary of the properties *)

Local Open Scope Z_scope.

(** Between 0.1f and 10.0f, in the order of [float]. *)
Definition inRange (z : F32.t) : bool := F32.leb F32.c0_1 z && F32.leb z F32.c10.

(** The zoom levels after each of a run of wheel events. *)
Fixpoint zoomTrace (dys : list Z) (s : State) : list F32.t :=
  match dys with
  | [] => []
  | dy :: dys' =>
      let s' := wheelEvent dy s in zoomLevel s' :: zoomTrace dys' s'
  end.

Definition c0_5625 : F32.t := S754_finite false 9437184 (-24).   (* 9/16 *)
Definition c0_75 : F32.t := S754_finite false 12582912 (-24).    (* 3/4 *)

(** The two moves through the file list. *)
Inductive Nav := Advance | Retreat.

(** The key that asks for a move, and the index the move aims at. *)
Definition navKey (n : Nav) : Key :=
  match n with Advance => Key_Right | Retreat => Key_Left end.

Definition navTarget (n : Nav) (s : State) : Z :=
  match n with
  | Advance => currentImageIndex s + 1
  | Retreat => currentImageIndex s - 1
  end.

Definition inBounds (index : Z) (s : State) : Prop :=
  0 <= index < size (imageFiles s).

Definition pathAt (s : State) (index : Z) : string :=
  absoluteFilePath (at_ (imageFiles s) index).

(** *** A directory to try things on *)

Definition picture (wd ht : Z) : ImageData :=
  {| img_width := wd; img_height := ht; img_format := Format_Decoded;
     img_pixels := [] |}.

Definition plainFile (name : string) : DirEntry :=
  {| de_name := name; de_isFile := true; de_hidden := false |}.

Definition hiddenFile (name : string) : DirEntry :=
  {| de_name := name; de_isFile := true; de_hidden := true |}.

(** [/pics] holds z.gif, c.txt, b.jpg and a.png; [/notes] holds only c.txt;
    [/mixed] holds a.png and a hidden .b.png. *)
Definition demoFs : FileSystem :=
  fun path =>
    if String.eqb path "/pics" then
      Directory [plainFile "z.gif"; plainFile "c.txt"; plainFile "b.jpg";
                 plainFile "a.png"]
    else if String.eqb path "/notes" then Directory [plainFile "c.txt"]
    else if String.eqb path "/mixed" then
      Directory [plainFile "a.png"; hiddenFile ".b.png"]
    else Nothing.

(** Every file decodes to a 600 x 800 picture, but b.jpg is damaged. *)
Definition demoWorld : World :=
  {| readImage := fun path =>
       if String.eqb path "/pics/b.jpg" then None else Some (picture 600 800);
     textureCreated := fun _ => true |}.

(** Every file decodes. *)
Definition soundWorld : World :=
  {| readImage := fun _ => Some (picture 1920 1080);
     textureCreated := fun _ => true |}.

Definition goodSetup : GLSetup :=
  {| hasContext := true; vertexOk := true; fragmentOk := true;
     linkOk := true; vboOk := true; eboOk := true |}.

Definition noStdin : Stdin :=
  {| stdinData := []; canRead := false; readResult := None |}.

(** The session on [/pics] once the first image is up. *)
Definition demoShowing (rev : Revision) : State :=
  initializeGL rev goodSetup demoWorld (ImageGLWidget_ofPath rev demoFs "/pics").

(** The session on [/pics], every file sound, after two steps forward. *)
Definition demoAtLast : State :=
  run Reporting [(soundWorld, KeyPress Key_Right);
                 (soundWorld, KeyPress Key_Right)]
    (initializeGL Reporting goodSetup soundWorld
       (ImageGLWidget_ofPath Reporting demoFs "/pics")).

(** The application has been asked to quit, or an image stands behind the
    texture. *)
Definition imageBehindTexture (s : State) : Prop :=
  quitRequested s = true \/ (texture s <> None -> isNull (image s) = false).

(** Every step of the GL set-up succeeds. *)
Definition setupOk (g : GLSetup) : bool :=
  hasContext g && vertexOk g && fragmentOk g && linkOk g && vboOk g && eboOk g.

(** The widget's texture pointer and the GL context agree: the pointer is
    null and no texture object is live, or it points at a created texture
    that is the only live one. *)
Definition textureInv (s : State) : Prop :=
  match texture s with
  | Some t => tex_created t = true /\ glTextures s = [tex_id t]
  | None => glTextures s = []
  end.

Fixpoint lower (s : string) : string :=
  match s with
  | EmptyString => EmptyString
  | String c r => String (toLower c) (lower r)
  end.

Fixpoint noStar (s : string) : bool :=
  match s with
  | EmptyString => true
  | String c r => negb (isStar c) && noStar r
  end.

Definition extensions : list string := ["jpg"; "jpeg"; "png"; "bmp"; "gif"].

(** A name has extension [ext] when it is a stem, a dot, and [ext] in any
    mix of cases. *)
Definition hasExtension (ext name : string) : Prop :=
  exists stem suffix, name = stem ++ "." ++ suffix /\ lower suffix = ext.

Definition hasImageExtension (name : string) : Prop :=
  exists ext, In ext extensions /\ hasExtension ext name.

(** Ascending order of names, and of entries by name. *)
Definition nameLe (a b : string) : Prop := String.leb a b = true.

Definition entryLe (a b : DirEntry) : Prop := nameLe (de_name a) (de_name b).

(** *** Vocabulary of the further properties *)

(** What [loadImage] does to the index and, in grxiv.cpp, to the title before
    it reads the file. *)
Definition retitle (rev : Revision) (index : Z) (s : State) : State :=
  match rev with
  | Quitting =>
      setWindowTitle
        (TitlePosition (fileName (at_ (imageFiles s) index)) (index + 1)
           (size (imageFiles s)))
        (set_currentImageIndex index s)
  | Reporting => set_currentImageIndex index s
  end.

(** The texture [updateTexture] leaves for image data [d] under the GL name
    [id]. *)
Definition uploaded (id : nat) (d : ImageData) : QOpenGLTexture :=
  {| tex_id := id; tex_created := true; tex_source := d;
     tex_min := LinearMipMapLinear; tex_mag := Linear; tex_mipmaps := true |}.

(** The texture the widget holds is an upload of ARGB32 data under a name
    already handed out, and of the current image if there is one. *)
Definition textureOk (s : State) : Prop :=
  match texture s with
  | Some t =>
      (tex_id t < glNext s)%nat
      /\ t = uploaded (tex_id t) (tex_source t)
      /\ img_format (tex_source t) = Format_ARGB32
      /\ (forall d, image s = Some d -> tex_source t = d)
  | None => True
  end.

Definition isQuitKey (we : World * Event) : bool :=
  match snd we with
  | KeyPress Key_Q => true
  | _ => false
  end.

(** The index is -1 or a position of the list, and a position whenever a
    texture is held. *)
Definition indexOk (s : State) : Prop :=
  -1 <= currentImageIndex s < size (imageFiles s)
  /\ (texture s <> None -> 0 <= currentImageIndex s).

(** What the two revisions have in common: everything but the quit request,
    the title, the diagnostics and the shader program. *)
Definition sameCore (a b : State) : Prop :=
  image a = image b /\ texture a = texture b /\ zoomLevel a = zoomLevel b
  /\ imageFiles a = imageFiles b
  /\ currentImageIndex a = currentImageIndex b
  /\ glTextures a = glTextures b /\ glNext a = glNext b
  /\ windowClosed a = windowClosed b.

(** The title grxiv.cpp shows for a session on [path]. *)
Definition titleOk (path : string) (s : State) : Prop :=
  (currentImageIndex s = -1 /\ windowTitle s = TitleFileNameOf path)
  \/ (0 <= currentImageIndex s
      /\ windowTitle s
         = TitlePosition
             (fileName (at_ (imageFiles s) (currentImageIndex s)))
             (currentImageIndex s + 1) (size (imageFiles s))).

(** A session from standard input stays on its one image. *)
Definition onStdinImage (d : ImageData) (s : State) : Prop :=
  imageFiles s = [fileInfo "clipboard_image"]
  /\ currentImageIndex s = 0
  /\ (image s = Some d \/ image s = convertToFormat Format_ARGB32 (Some d))
  /\ quitRequested s = false
  /\ windowTitle s = TitleText "grxiv".

(** Standard input that holds an image [d]. *)
Definition stdinWith (d : ImageData) : Stdin :=
  {| stdinData := [137; 80; 78; 71]; canRead := true; readResult := Some d |}.

(** A world in which no texture can be created. *)
Definition noTextureWorld : World :=
  {| readImage := fun _ => Some (picture 1920 1080);
     textureCreated := fun _ => false |}.

(** A set-up in which the program does not link. *)
Definition unlinkedSetup : GLSetup :=
  {| hasContext := true; vertexOk := true; fragmentOk := true;
     linkOk := false; vboOk := true; eboOk := true |}.

(** * Properties *)

(** ** Zoom *)

Lemma ltb_leb (a b : F32.t) : F32.ltb a b = true -> F32.leb a b = true.
Proof.
  unfold F32.ltb, F32.leb, SFltb, SFleb.
  destruct (SFcompare a b) as [[ | | ]|]; congruence.
Qed.

Lemma compare_eq_finite (z : F32.t) (m : positive) (e : Z) :
  SFcompare z (S754_finite false m e) = Some Eq -> z = S754_finite false m e.
Proof.
  destruct z as [s|s| |s m0 e0]; simpl; try discriminate.
  - destruct s; discriminate.
  - destruct s; try discriminate.
    destruct (Z.compare_spec e0 e) as [He|He|He]; try discriminate.
    intros H. injection H as H. apply Pos.compare_eq in H. now subst.
Qed.

Lemma compare_eq_finite_l (z : F32.t) (m : positive) (e : Z) :
  SFcompare (S754_finite false m e) z = Some Eq -> z = S754_finite false m e.
Proof.
  destruct z as [s|s| |s m0 e0]; simpl; try discriminate.
  - destruct s; discriminate.
  - destruct s; try discriminate.
    destruct (Z.compare_spec e e0) as [He|He|He]; try discriminate.
    intros H. injection H as H. apply Pos.compare_eq in H. now subst.
Qed.

(** The clamp answers a bound, or its argument when that lies strictly
    between the bounds. *)
Lemma clampZoom_cases (z : F32.t) :
  clampZoom z = F32.c0_1 \/ clampZoom z = F32.c10 \/
  (clampZoom z = z /\ F32.ltb F32.c0_1 z = true /\ F32.ltb z F32.c10 = true).
Proof.
  unfold clampZoom, qMax, qMin.
  destruct (F32.ltb z F32.c10) eqn:Hhi.
  - destruct (F32.ltb F32.c0_1 z) eqn:Hlo; auto.
  - right. left. reflexivity.
Qed.

Lemma clampZoom_inRange (z : F32.t) : inRange (clampZoom z) = true.
Proof.
  destruct (clampZoom_cases z) as [H|[H|(H & Hlo & Hhi)]]; rewrite H.
  - reflexivity.
  - reflexivity.
  - unfold inRange. now rewrite (ltb_leb _ _ Hlo), (ltb_leb _ _ Hhi).
Qed.

(** A level within the bounds is left as it is. *)
Lemma clampZoom_fixes (z : F32.t) : inRange z = true -> clampZoom z = z.
Proof.
  unfold inRange. intros H. apply andb_prop in H as [Hlo Hhi].
  unfold clampZoom, qMax, qMin, F32.ltb, F32.leb, SFltb, SFleb in *.
  destruct (SFcompare z F32.c10) as [[ | | ]|] eqn:Chi; try discriminate.
  - apply compare_eq_finite in Chi. subst z. reflexivity.
  - destruct (SFcompare F32.c0_1 z) as [[ | | ]|] eqn:Clo; try discriminate.
    + apply compare_eq_finite_l in Clo. now subst z.
    + reflexivity.
Qed.

Lemma clampZoom_idempotent (z : F32.t) : clampZoom (clampZoom z) = clampZoom z.
Proof. apply clampZoom_fixes, clampZoom_inRange. Qed.

Lemma wheelEvent_zoomLevel (dy : Z) (s : State) :
  zoomLevel (wheelEvent dy s)
  = clampZoom (F32.mul (zoomLevel s) (if dy >? 0 then F32.c1_1 else F32.c0_9)).
Proof. reflexivity. Qed.

(** C2. Whatever the wheel events and the level they start from, the zoom
    level after each event lies between 0.1f and 10.0f; the clamp leaves the
    two bounds, and any value it has produced, as they are. *)
Theorem zoom_stays_in_range :
  forall (dys : list Z) (s : State),
    Forall (fun z => inRange z = true) (zoomTrace dys s)
    /\ clampZoom F32.c0_1 = F32.c0_1
    /\ clampZoom F32.c10 = F32.c10
    /\ forall z, clampZoom (clampZoom z) = clampZoom z.
Proof.
  intros dys s. repeat split.
  - revert s. induction dys as [|dy dys IH]; intros s; cbn [zoomTrace].
    + constructor.
    + constructor.
      * rewrite wheelEvent_zoomLevel. apply clampZoom_inRange.
      * apply IH.
  - apply clampZoom_idempotent.
Qed.

(** C3, as the claim has it, fails: a wheel step down from zoom 1.0 gives
    1.0f * 0.9f, not 1.0f / 1.1f. *)
Lemma zoom_out_is_not_division :
  let s := fresh 0 (TitleText "grxiv") in
  zoomLevel s = F32.one
  /\ zoomLevel (wheelEvent (-120) s) = F32.c0_9
  /\ clampZoom (F32.div (zoomLevel s) F32.c1_1)
     = S754_finite false 15252014 (-24)
  /\ zoomLevel (wheelEvent (-120) s)
     <> clampZoom (F32.div (zoomLevel s) F32.c1_1).
Proof.
  repeat split; try (vm_compute; reflexivity).
  vm_compute. discriminate.
Qed.

(** C3, amended. A wheel event with a positive vertical delta sets the zoom
    to the clamp of zoom * 1.1f, any other wheel event to the clamp of
    zoom * 0.9f; the image, the texture, the index, the file list and the
    rest of the state stay as they were. *)
Theorem wheel_zoom_frame :
  forall (dy : Z) (s : State),
    let s' := wheelEvent dy s in
    zoomLevel s'
    = clampZoom (F32.mul (zoomLevel s)
                   (if dy >? 0 then F32.c1_1 else F32.c0_9))
    /\ s' = set_zoomLevel (zoomLevel s') s
    /\ image s' = image s
    /\ texture s' = texture s
    /\ glTextures s' = glTextures s
    /\ currentImageIndex s' = currentImageIndex s
    /\ imageFiles s' = imageFiles s
    /\ shaderProgram s' = shaderProgram s
    /\ quitRequested s' = quitRequested s
    /\ windowClosed s' = windowClosed s
    /\ windowTitle s' = windowTitle s
    /\ reports s' = reports s.
Proof. intros dy s. cbv zeta. repeat split. Qed.

(** ** The viewport transform *)

Lemma scale_identity_off_diagonal (x y z : F32.t) (i j : nat) :
  (i < 4)%nat -> (j < 4)%nat -> i <> j ->
  entry (scale x y z identity) i j = f0.
Proof.
  intros Hi Hj Hij.
  do 4 (destruct i as [|i]; [ do 4 (destruct j as [|j]; [ try congruence; reflexivity | ]); lia | ]).
  lia.
Qed.

(** C4. The matrix a frame uploads is the identity scaled by
    (scaleX * zoom, scaleY * zoom, 1), where, with imageAspect = width / height
    and windowAspect = winWidth / winHeight in float arithmetic, scaleX = 1 and
    scaleY = windowAspect / imageAspect if imageAspect > windowAspect, and
    scaleX = imageAspect / windowAspect and scaleY = 1 otherwise; every entry
    off the diagonal stays 0 and the last diagonal entry stays 1. A 600 x 800
    image in an 800 x 600 window gets scaleX = 0.5625 and scaleY = 1; a
    1920 x 1080 image in that window gets scaleX = 1 and scaleY = 0.75. *)
Theorem viewport_transform_spec :
  forall (s : State) (winW winH : Z),
    let imageAspect :=
      F32.div (F32.of_int (width (image s))) (F32.of_int (height (image s))) in
    let windowAspect := F32.div (F32.of_int winW) (F32.of_int winH) in
    let scaleX :=
      if F32.ltb windowAspect imageAspect then F32.one
      else F32.div imageAspect windowAspect in
    let scaleY :=
      if F32.ltb windowAspect imageAspect
      then F32.div windowAspect imageAspect else F32.one in
    let mvp :=
      scale (F32.mul scaleX (zoomLevel s)) (F32.mul scaleY (zoomLevel s))
        F32.one identity in
    match paintGL s winW winH with
    | Some d => draw_mvp d = mvp /\ draw_indices d = 6
    | None => True
    end
    /\ viewportTransform (image s) winW winH (zoomLevel s) = mvp
    /\ (forall i j, (i < 4)%nat -> (j < 4)%nat -> i <> j -> entry mvp i j = f0)
    /\ entry mvp 0 0 = F32.mul F32.one (F32.mul scaleX (zoomLevel s))
    /\ entry mvp 1 1 = F32.mul F32.one (F32.mul scaleY (zoomLevel s))
    /\ entry mvp 2 2 = F32.one
    /\ entry mvp 3 3 = F32.one
    /\ fitScale 600 800 800 600 = (c0_5625, F32.one)
    /\ fitScale 1920 1080 800 600 = (F32.one, c0_75)
    /\ c0_5625 = F32.div (F32.of_int 9) (F32.of_int 16)
    /\ c0_75 = F32.div (F32.of_int 3) (F32.of_int 4).
Proof.
  intros s winW winH imageAspect windowAspect scaleX scaleY mvp.
  assert (Hv : viewportTransform (image s) winW winH (zoomLevel s) = mvp).
  { unfold viewportTransform, fitScale, mvp, scaleX, scaleY.
    fold imageAspect windowAspect.
    destruct (F32.ltb windowAspect imageAspect); reflexivity. }
  split; [| split; [exact Hv | split; [| repeat split; vm_compute; reflexivity ]]].
  - unfold paintGL.
    destruct (texture s) as [t|]; [| exact I].
    destruct (shaderProgram s) as [p|]; [| exact I].
    destruct (negb (tex_created t) || negb (isLinked p)); [exact I |].
    cbn [draw_mvp draw_indices]. split; [exact Hv | reflexivity].
  - intros i j. apply scale_identity_off_diagonal.
Qed.

(** ** What [updateTexture] leaves alone *)

Lemma releaseTexture_frame (s : State) :
  let s' := releaseTexture s in
  image s' = image s /\ zoomLevel s' = zoomLevel s
  /\ imageFiles s' = imageFiles s
  /\ currentImageIndex s' = currentImageIndex s
  /\ shaderProgram s' = shaderProgram s
  /\ quitRequested s' = quitRequested s
  /\ windowClosed s' = windowClosed s
  /\ reports s' = reports s.
Proof.
  unfold releaseTexture. destruct (texture s); cbn; repeat split.
Qed.

Lemma createTexture_frame (rev : Revision) (w : World) (s : State) :
  let s' := createTexture rev w s in
  image s' = image s /\ zoomLevel s' = zoomLevel s
  /\ imageFiles s' = imageFiles s
  /\ currentImageIndex s' = currentImageIndex s
  /\ shaderProgram s' = shaderProgram s
  /\ quitRequested s' = quitRequested s
  /\ windowClosed s' = windowClosed s.
Proof.
  unfold createTexture, newTexture.
  destruct (image s) as [d|] eqn:Hi; [| cbn; repeat split; exact Hi].
  destruct (textureCreated w d); destruct rev; cbn; repeat split; exact Hi.
Qed.

Lemma updateTexture_frame (rev : Revision) (w : World) (s : State) :
  let s' := updateTexture rev w s in
  image s' = image s /\ zoomLevel s' = zoomLevel s
  /\ imageFiles s' = imageFiles s
  /\ currentImageIndex s' = currentImageIndex s
  /\ shaderProgram s' = shaderProgram s
  /\ quitRequested s' = quitRequested s
  /\ windowClosed s' = windowClosed s.
Proof.
  unfold updateTexture.
  destruct (createTexture_frame rev w (releaseTexture s))
    as (H1 & H2 & H3 & H4 & H5 & H6 & H7).
  destruct (releaseTexture_frame s) as (G1 & G2 & G3 & G4 & G5 & G6 & G7 & _).
  cbv zeta in *. repeat split; congruence.
Qed.

(** ** Navigation *)

(** A move whose target is in bounds is a load of the target. *)
Lemma navigate_loads (rev : Revision) (w : World) (n : Nav) (s : State) :
  inBounds (navTarget n s) s ->
  keyPressEvent rev w (navKey n) s = loadImage rev w (navTarget n s) s.
Proof.
  unfold inBounds. intros [Hlo Hhi].
  destruct n; cbn [navKey navTarget keyPressEvent] in *.
  - unfold loadNextImage.
    destruct (Z.ltb_spec (currentImageIndex s + 1) (size (imageFiles s))); [reflexivity | lia].
  - unfold loadPreviousImage.
    destruct (Z.geb_spec (currentImageIndex s - 1) 0); [reflexivity | lia].
Qed.

(** A move whose target is out of bounds does nothing. *)
Lemma navigate_out_of_bounds (rev : Revision) (w : World) (n : Nav) (s : State) :
  ~ inBounds (navTarget n s) s ->
  keyPressEvent rev w (navKey n) s = s.
Proof.
  unfold inBounds. intros H.
  destruct n; cbn [navKey navTarget keyPressEvent] in *.
  - unfold loadNextImage.
    destruct (Z.ltb_spec (currentImageIndex s + 1) (size (imageFiles s))) as [Hlt|]; [| reflexivity].
    unfold loadImage.
    destruct (Z.ltb_spec (currentImageIndex s + 1) 0); [reflexivity |]. lia.
  - unfold loadPreviousImage.
    destruct (Z.geb_spec (currentImageIndex s - 1) 0) as [Hge|]; [| reflexivity].
    unfold loadImage.
    destruct (Z.ltb_spec (currentImageIndex s - 1) 0); [lia |].
    destruct (Z.geb_spec (currentImageIndex s - 1) (size (imageFiles s))); [reflexivity | lia].
Qed.

Lemma loadImage_in_bounds (rev : Revision) (w : World) (index : Z) (s : State) :
  inBounds index s ->
  (index <? 0) || (index >=? size (imageFiles s)) = false.
Proof.
  unfold inBounds. intros [Hlo Hhi].
  destruct (Z.ltb_spec index 0); [lia |].
  destruct (Z.geb_spec index (size (imageFiles s))); [lia | reflexivity].
Qed.

(** [loadImage] when the reader answers an image. *)
Lemma loadImage_success (rev : Revision) (w : World) (index : Z) (s : State)
  (d : ImageData) :
  inBounds index s ->
  readImage w (pathAt s index) = Some d ->
  exists s1,
    loadImage rev w index s = updateTexture rev w s1
    /\ zoomLevel s1 = F32.one
    /\ image s1 = convertToFormat Format_ARGB32 (Some d)
    /\ currentImageIndex s1 = index
    /\ imageFiles s1 = imageFiles s
    /\ texture s1 = texture s
    /\ glTextures s1 = glTextures s
    /\ quitRequested s1 = quitRequested s.
Proof.
  intros Hb Hr. unfold loadImage.
  rewrite (loadImage_in_bounds rev w index s Hb).
  unfold pathAt in Hr.
  destruct rev; cbn -[updateTexture at_ size]; unfold QImage_load;
    rewrite Hr; cbn -[updateTexture at_ size];
    eexists; (split; [reflexivity |]); cbn; repeat split.
Qed.

(** [loadImage] when the reader answers the null image. *)
Lemma loadImage_failure (rev : Revision) (w : World) (index : Z) (s : State) :
  inBounds index s ->
  readImage w (pathAt s index) = None ->
  let s' := loadImage rev w index s in
  texture s' = texture s
  /\ glTextures s' = glTextures s
  /\ zoomLevel s' = zoomLevel s
  /\ imageFiles s' = imageFiles s
  /\ currentImageIndex s' = index
  /\ image s' = None
  /\ quitRequested s'
     = match rev with Quitting => true | Reporting => quitRequested s end
  /\ reports s'
     = match rev with
       | Quitting => reports s
       | Reporting => (reports s ++ [FailedToLoad (pathAt s index)])%list
       end.
Proof.
  intros Hb Hr. unfold loadImage.
  rewrite (loadImage_in_bounds rev w index s Hb).
  unfold pathAt in *.
  destruct rev; cbn -[at_ size]; unfold QImage_load;
    rewrite Hr; cbn -[at_ size]; repeat split.
Qed.

(** A load leaves the zoom as it was or sets it to 1.0f. *)
Lemma loadImage_zoom (rev : Revision) (w : World) (index : Z) (s : State) :
  zoomLevel (loadImage rev w index s) = zoomLevel s
  \/ zoomLevel (loadImage rev w index s) = F32.one.
Proof.
  unfold loadImage.
  destruct ((index <? 0) || (index >=? size (imageFiles s))); [now left |].
  unfold QImage_load.
  destruct rev; cbn -[updateTexture at_ size];
    match goal with
    | |- context [readImage w ?p] => destruct (readImage w p) as [d|]
    end;
    cbn -[updateTexture at_ size]; try (now left);
    right;
    match goal with
    | |- zoomLevel (updateTexture ?r ?w ?s1) = _ =>
        destruct (updateTexture_frame r w s1) as (_ & H & _);
        cbv zeta in H; rewrite H; reflexivity
    end.
Qed.

Lemma step_zoom_inRange (rev : Revision) (w : World) (e : Event) (s : State) :
  inRange (zoomLevel s) = true -> inRange (zoomLevel (step rev w e s)) = true.
Proof.
  intros H. destruct e as [dy|k|ww wh]; cbn [step].
  - rewrite wheelEvent_zoomLevel. apply clampZoom_inRange.
  - destruct k; cbn [keyPressEvent]; try exact H.
    + unfold loadPreviousImage.
      destruct (currentImageIndex s - 1 >=? 0); [| exact H].
      destruct (loadImage_zoom rev w (currentImageIndex s - 1) s) as [-> | ->];
        [exact H | reflexivity].
    + unfold loadNextImage.
      destruct (currentImageIndex s + 1 <? size (imageFiles s)); [| exact H].
      destruct (loadImage_zoom rev w (currentImageIndex s + 1) s) as [-> | ->];
        [exact H | reflexivity].
  - exact H.
Qed.

Lemma initializeGL_zoom (rev : Revision) (g : GLSetup) (w : World) (s : State) :
  zoomLevel (initializeGL rev g w s) = zoomLevel s
  \/ zoomLevel (initializeGL rev g w s) = F32.one.
Proof.
  assert (B : forall s0, zoomLevel (initializeBuffers rev g w s0) = zoomLevel s0
                         \/ zoomLevel (initializeBuffers rev g w s0) = F32.one).
  { intros s0. unfold initializeBuffers.
    destruct (negb (vboOk g)); [now left |].
    destruct (negb (eboOk g)); [now left |].
    destruct (imageFiles s0); [now left |].
    destruct rev; [| apply loadImage_zoom].
    destruct (isNull (image s0)); [apply loadImage_zoom |].
    left.
    match goal with
    | |- zoomLevel (updateTexture ?r ?w ?s1) = _ =>
        destruct (updateTexture_frame r w s1) as (_ & H & _);
        cbv zeta in H; rewrite H; reflexivity
    end. }
  unfold initializeGL.
  destruct (negb (hasContext g)); [now left |].
  destruct rev.
  - destruct (negb (vertexOk g && fragmentOk g && linkOk g)); [now left |].
    exact (B (set_shaderProgram _ s)).
  - destruct (negb (vertexOk g)); [now left |].
    destruct (negb (fragmentOk g)); [now left |].
    destruct (negb (linkOk g)); [now left |].
    exact (B (set_shaderProgram _ s)).
Qed.

(** X19. In every state a session reaches, after loads and failed loads as
    after wheel events, the zoom lies between 0.1f and 10.0f. *)
Lemma reachable_zoom_inRange (rev : Revision) (s : State) :
  reachable rev s -> inRange (zoomLevel s) = true.
Proof.
  induction 1 as [fs path g w | i g w _ | w e s _ IH].
  - destruct (initializeGL_zoom rev g w (ImageGLWidget_ofPath rev fs path)) as [-> | ->];
      [| reflexivity].
    unfold ImageGLWidget_ofPath. destruct (fs path) as [entries| |]; cbn.
    + destruct (entryInfoList path entries); destruct rev; reflexivity.
    + reflexivity.
    + destruct rev; reflexivity.
  - destruct (initializeGL_zoom rev g w (ImageGLWidget_ofImage i)) as [-> | ->];
      [| reflexivity].
    unfold ImageGLWidget_ofImage. destruct i; reflexivity.
  - now apply step_zoom_inRange.
Qed.

(** ** Moves at the ends, loads that succeed, loads that fail *)

(** C5. With the index at the last entry the right arrow changes nothing,
    and with the index at 0 the left arrow changes nothing: the whole state,
    so the index, the image, the texture and the zoom, is as before. *)
Theorem navigation_noop_at_ends :
  forall (rev : Revision) (w : World) (s : State),
    (currentImageIndex s + 1 >= size (imageFiles s) ->
     keyPressEvent rev w Key_Right s = s /\ loadNextImage rev w s = s)
    /\ (currentImageIndex s = 0 ->
        keyPressEvent rev w Key_Left s = s /\ loadPreviousImage rev w s = s).
Proof.
  intros rev w s. split; intros H.
  - assert (E : keyPressEvent rev w (navKey Advance) s = s).
    { apply navigate_out_of_bounds. unfold inBounds, navTarget. lia. }
    split; exact E.
  - assert (E : keyPressEvent rev w (navKey Retreat) s = s).
    { apply navigate_out_of_bounds. unfold inBounds, navTarget. lia. }
    split; exact E.
Qed.

Lemma navigation_noop_at_ends_witness :
  currentImageIndex (demoShowing Quitting) = 0
  /\ keyPressEvent Quitting demoWorld Key_Left (demoShowing Quitting)
     = demoShowing Quitting
  /\ currentImageIndex demoAtLast = 2
  /\ size (imageFiles demoAtLast) = 3
  /\ keyPressEvent Reporting soundWorld Key_Right demoAtLast = demoAtLast.
Proof.
  split; [reflexivity |].
  split; [apply (navigation_noop_at_ends Quitting demoWorld (demoShowing Quitting)); reflexivity |].
  split; [reflexivity |].
  split; [reflexivity |].
  apply (navigation_noop_at_ends Reporting soundWorld demoAtLast).
  vm_compute. discriminate.
Defined.

Lemma initializeGL_loads_first (rev : Revision) (g : GLSetup) (w : World)
  (s : State) :
  setupOk g = true -> inBounds 0 s -> image s = None ->
  exists s0,
    initializeGL rev g w s = loadImage rev w 0 s0
    /\ imageFiles s0 = imageFiles s.
Proof.
  unfold setupOk. intros Hg Hb Hi.
  repeat (apply andb_prop in Hg as [Hg ?]).
  assert (Hne : exists f fs, imageFiles s = f :: fs).
  { unfold inBounds, size in Hb. destruct (imageFiles s) as [|f fs]; cbn in Hb; [lia | eauto]. }
  destruct Hne as (f & fs & Hfs).
  exists (set_shaderProgram (Some {| isLinked := linkOk g |}) s).
  split; [| reflexivity].
  unfold initializeGL, initializeBuffers. rewrite Hg.
  destruct rev; repeat match goal with H : _ = true |- _ => rewrite H end;
    cbn [negb set_shaderProgram imageFiles image]; rewrite Hfs; try rewrite Hi;
    reflexivity.
Qed.

(** C9. A load that succeeds leaves the zoom at exactly 1.0f, whatever it was
    before: a load by index, a move forward or back onto that index, and the
    first load of a session; a session on an image from standard input starts
    at 1.0f as well. *)
Theorem load_resets_zoom :
  forall (rev : Revision) (w : World) (s : State) (index : Z) (d : ImageData),
    inBounds index s ->
    readImage w (pathAt s index) = Some d ->
    zoomLevel (loadImage rev w index s) = F32.one
    /\ (forall n, navTarget n s = index ->
                  zoomLevel (keyPressEvent rev w (navKey n) s) = F32.one)
    /\ (forall g, setupOk g = true -> index = 0 -> image s = None ->
                  zoomLevel (initializeGL rev g w s) = F32.one)
    /\ (forall g i,
           zoomLevel (initializeGL rev g w (ImageGLWidget_ofImage i)) = F32.one).
Proof.
  intros rev w s index d Hb Hr.
  assert (L : forall s0, imageFiles s0 = imageFiles s ->
                         zoomLevel (loadImage rev w index s0) = F32.one).
  { intros s0 Hf.
    assert (Hb0 : inBounds index s0) by (unfold inBounds in *; now rewrite Hf).
    assert (Hr0 : readImage w (pathAt s0 index) = Some d)
      by (unfold pathAt in *; now rewrite Hf).
    destruct (loadImage_success rev w index s0 d Hb0 Hr0) as (s1 & E & Z1 & _).
    rewrite E. destruct (updateTexture_frame rev w s1) as (_ & Z2 & _).
    cbv zeta in Z2. congruence. }
  split; [apply L; reflexivity |]. split; [| split].
  - intros n Hn. rewrite navigate_loads by (rewrite Hn; exact Hb).
    rewrite Hn. apply L. reflexivity.
  - intros g Hg H0 Hi. subst index.
    destruct (initializeGL_loads_first rev g w s Hg Hb Hi) as (s0 & E & Hf).
    rewrite E. apply L. exact Hf.
  - intros g i.
    destruct (initializeGL_zoom rev g w (ImageGLWidget_ofImage i)) as [-> | ->];
      [| reflexivity].
    unfold ImageGLWidget_ofImage. destruct i; reflexivity.
Qed.

Lemma load_resets_zoom_witness :
  let s := wheelEvent 120 (wheelEvent 120 (demoShowing Quitting)) in
  zoomLevel s <> F32.one
  /\ zoomLevel (loadImage Quitting demoWorld 2 s) = F32.one.
Proof.
  cbv zeta. split; [vm_compute; discriminate |].
  apply (load_resets_zoom Quitting demoWorld
           (wheelEvent 120 (wheelEvent 120 (demoShowing Quitting))) 2
           (picture 600 800)).
  - unfold inBounds. vm_compute. split; discriminate || reflexivity.
  - reflexivity.
Defined.

(** C1, as the claim has it, fails. In [/pics] with b.jpg damaged, the right
    arrow at a.png moves the index to 1 in both revisions, and grxiv.cpp asks
    the application to quit. *)
Lemma failed_advance_moves_on :
  let s := demoShowing Reporting in
  let q := demoShowing Quitting in
  currentImageIndex s = 0
  /\ readImage demoWorld (pathAt s 1) = None
  /\ currentImageIndex (keyPressEvent Reporting demoWorld Key_Right s)
     <> currentImageIndex s
  /\ currentImageIndex (keyPressEvent Quitting demoWorld Key_Right q)
     <> currentImageIndex q
  /\ quitRequested q = false
  /\ quitRequested (keyPressEvent Quitting demoWorld Key_Right q) = true.
Proof.
  cbv zeta. repeat split; try reflexivity; vm_compute; discriminate.
Qed.

(** C1, amended. When the load of a move forward or back fails, the texture
    object and the live GL texture are the ones from before and the zoom is
    unchanged; the index has moved to the entry whose load failed; grxiv.cpp
    has asked the application to quit, the reporting revision has not and has
    recorded the failure. *)
Theorem failed_navigation_load :
  forall (rev : Revision) (w : World) (n : Nav) (s : State),
    inBounds (navTarget n s) s ->
    readImage w (pathAt s (navTarget n s)) = None ->
    let s' := keyPressEvent rev w (navKey n) s in
    texture s' = texture s
    /\ glTextures s' = glTextures s
    /\ zoomLevel s' = zoomLevel s
    /\ imageFiles s' = imageFiles s
    /\ currentImageIndex s' = navTarget n s
    /\ quitRequested s'
       = match rev with Quitting => true | Reporting => quitRequested s end
    /\ reports s'
       = match rev with
         | Quitting => reports s
         | Reporting =>
             (reports s ++ [FailedToLoad (pathAt s (navTarget n s))])%list
         end.
Proof.
  intros rev w n s Hb Hr. cbv zeta.
  rewrite (navigate_loads rev w n s Hb).
  destruct (loadImage_failure rev w (navTarget n s) s Hb Hr)
    as (H1 & H2 & H3 & H4 & H5 & _ & H7 & H8).
  cbv zeta in *. repeat split; assumption.
Qed.

Lemma failed_navigation_load_witness :
  let s := demoShowing Reporting in
  let s' := keyPressEvent Reporting demoWorld Key_Right s in
  texture s' = texture s
  /\ glTextures s' = glTextures s
  /\ zoomLevel s' = zoomLevel s
  /\ imageFiles s' = imageFiles s
  /\ currentImageIndex s' = 1
  /\ quitRequested s' = false
  /\ reports s' = [FailedToLoad "/pics/b.jpg"].
Proof.
  cbv zeta.
  apply (failed_navigation_load Reporting demoWorld Advance (demoShowing Reporting)).
  - unfold inBounds. vm_compute. split; discriminate || reflexivity.
  - reflexivity.
Defined.

(** ** The one texture *)

Lemma releaseTexture_clears (s : State) :
  textureInv s ->
  texture (releaseTexture s) = None /\ glTextures (releaseTexture s) = [].
Proof.
  unfold textureInv, releaseTexture.
  destruct (texture s) as [t|] eqn:Ht.
  - intros [Hc Hl]. cbn. split; [reflexivity |].
    unfold glDelete. rewrite Hc, Hl. cbn.
    destruct (Nat.eq_dec (tex_id t) (tex_id t)); [reflexivity | congruence].
  - intros Hl. now rewrite Ht.
Qed.

Lemma createTexture_inv (rev : Revision) (w : World) (s : State) :
  texture s = None -> glTextures s = [] ->
  textureInv (createTexture rev w s).
Proof.
  intros Ht Hl. unfold createTexture, newTexture, textureInv.
  destruct (image s) as [d|]; [| now rewrite Ht].
  destruct (textureCreated w d); cbn.
  - rewrite Hl. split; reflexivity.
  - destruct rev; cbn; exact Hl.
Qed.

Lemma updateTexture_inv (rev : Revision) (w : World) (s : State) :
  textureInv s -> textureInv (updateTexture rev w s).
Proof.
  intros H. destruct (releaseTexture_clears s H) as [Ht Hl].
  unfold updateTexture. now apply createTexture_inv.
Qed.

(** The invariant only reads the texture pointer and the GL context. *)
Lemma textureInv_ext (s s' : State) :
  texture s' = texture s -> glTextures s' = glTextures s ->
  textureInv s -> textureInv s'.
Proof. unfold textureInv. intros -> ->. exact id. Qed.

Lemma loadImage_inv (rev : Revision) (w : World) (index : Z) (s : State) :
  textureInv s -> textureInv (loadImage rev w index s).
Proof.
  intros H. unfold loadImage.
  destruct ((index <? 0) || (index >=? size (imageFiles s))); [exact H |].
  unfold QImage_load.
  destruct rev; cbn -[updateTexture at_ size];
    match goal with
    | |- context [readImage w ?p] => destruct (readImage w p) as [d|]
    end;
    cbn -[updateTexture at_ size];
    try (apply updateTexture_inv);
    (eapply textureInv_ext; [| | exact H]; reflexivity).
Qed.

Lemma step_inv (rev : Revision) (w : World) (e : Event) (s : State) :
  textureInv s -> textureInv (step rev w e s).
Proof.
  intros H. destruct e as [dy|k|ww wh]; cbn [step].
  - eapply textureInv_ext; [| | exact H]; reflexivity.
  - destruct k; cbn [keyPressEvent].
    + eapply textureInv_ext; [| | exact H]; reflexivity.
    + unfold loadPreviousImage.
      destruct (currentImageIndex s - 1 >=? 0); [now apply loadImage_inv | exact H].
    + unfold loadNextImage.
      destruct (currentImageIndex s + 1 <? size (imageFiles s));
        [now apply loadImage_inv | exact H].
    + exact H.
  - exact H.
Qed.

Lemma initializeGL_inv (rev : Revision) (g : GLSetup) (w : World) (s : State) :
  textureInv s -> textureInv (initializeGL rev g w s).
Proof.
  intros H.
  assert (B : forall s0, textureInv s0 -> textureInv (initializeBuffers rev g w s0)).
  { intros s0 H0. unfold initializeBuffers.
    destruct (negb (vboOk g)); [exact H0 |].
    destruct (negb (eboOk g)); [exact H0 |].
    destruct (imageFiles s0); [exact H0 |].
    destruct rev; [| now apply loadImage_inv].
    destruct (isNull (image s0)); [now apply loadImage_inv |].
    apply updateTexture_inv.
    eapply textureInv_ext; [| | exact H0]; reflexivity. }
  unfold initializeGL.
  destruct (negb (hasContext g)); [exact H |].
  destruct rev.
  - destruct (negb (vertexOk g && fragmentOk g && linkOk g)).
    + eapply textureInv_ext; [| | exact H]; reflexivity.
    + apply B. eapply textureInv_ext; [| | exact H]; reflexivity.
  - destruct (negb (vertexOk g)).
    { eapply textureInv_ext; [| | exact H]; reflexivity. }
    destruct (negb (fragmentOk g)).
    { eapply textureInv_ext; [| | exact H]; reflexivity. }
    destruct (negb (linkOk g)).
    + eapply textureInv_ext; [| | exact H]; reflexivity.
    + apply B. eapply textureInv_ext; [| | exact H]; reflexivity.
Qed.

Lemma ImageGLWidget_ofPath_inv (rev : Revision) (fs : FileSystem) (path : string) :
  textureInv (ImageGLWidget_ofPath rev fs path).
Proof.
  unfold ImageGLWidget_ofPath, textureInv.
  destruct (fs path) as [entries| |]; cbn.
  - destruct (entryInfoList path entries); destruct rev; reflexivity.
  - reflexivity.
  - destruct rev; reflexivity.
Qed.

Lemma ImageGLWidget_ofImage_inv (i : QImage) : textureInv (ImageGLWidget_ofImage i).
Proof. unfold ImageGLWidget_ofImage, textureInv. destruct i; reflexivity. Qed.

Lemma reachable_inv (rev : Revision) (s : State) :
  reachable rev s -> textureInv s.
Proof.
  induction 1 as [fs path g w | i g w _ | w e s _ IH].
  - apply initializeGL_inv, ImageGLWidget_ofPath_inv.
  - apply initializeGL_inv, ImageGLWidget_ofImage_inv.
  - now apply step_inv.
Qed.

Lemma paintGL_no_texture (s : State) (winW winH : Z) :
  texture s = None -> paintGL s winW winH = None.
Proof. unfold paintGL. now intros ->. Qed.

(** The texture pointer and the GL context: in every state a session reaches
    at most one GL texture is live, and it is the one the widget points at.
    [updateTexture] first releases it, so that none is live when the new one
    is created and one at most afterwards; when the creation fails the widget
    points at no texture and none is live. A frame painted while the widget
    has no texture draws nothing. *)
Theorem one_live_texture :
  forall (rev : Revision) (s : State),
    reachable rev s ->
    (List.length (glTextures s) <= 1)%nat
    /\ textureInv s
    /\ glTextures (releaseTexture s) = []
    /\ (forall w, (List.length (glTextures (updateTexture rev w s)) <= 1)%nat
                  /\ textureInv (updateTexture rev w s))
    /\ (forall w d, image s = Some d -> textureCreated w d = false ->
                    texture (updateTexture rev w s) = None
                    /\ glTextures (updateTexture rev w s) = [])
    /\ (texture s = None ->
        forall winW winH, paintGL s winW winH = None).
Proof.
  intros rev s Hr. pose proof (reachable_inv rev s Hr) as Hi.
  assert (Hlen : forall s0, textureInv s0 -> (List.length (glTextures s0) <= 1)%nat).
  { intros s0. unfold textureInv. destruct (texture s0).
    - intros [_ ->]. cbn. lia.
    - intros ->. cbn. lia. }
  destruct (releaseTexture_clears s Hi) as [Ht Hl].
  split; [now apply Hlen |]. split; [exact Hi |]. split; [exact Hl |].
  split; [| split].
  - intros w. pose proof (updateTexture_inv rev w s Hi) as Hu.
    split; [now apply Hlen | exact Hu].
  - intros w d Himg Hfail. unfold updateTexture, createTexture, newTexture.
    destruct (releaseTexture_frame s) as (Hri & _). cbv zeta in Hri.
    rewrite Hri, Himg, Hfail. destruct rev; cbn; rewrite Hl; split; reflexivity.
  - intros Hn winW winH. now apply paintGL_no_texture.
Qed.

Lemma one_live_texture_witness :
  reachable Quitting (demoShowing Quitting)
  /\ (List.length (glTextures (demoShowing Quitting)) <= 1)%nat
  /\ textureInv (demoShowing Quitting).
Proof.
  assert (R : reachable Quitting (demoShowing Quitting)) by apply reach_path.
  split; [exact R |].
  pose proof (one_live_texture Quitting (demoShowing Quitting) R) as (H1 & H2 & _).
  split; assumption.
Defined.

(** ** A failed load and the next frame *)

(** C10, on the code: in [/pics] with b.jpg damaged, the reporting revision
    after the right arrow at a.png still holds the created texture of a.png,
    while the image has become null, of width and height 0. The session goes
    on, and the next frame divides 0.0f by 0.0f: the aspect ratio is NaN and so
    is the first entry of the matrix it draws with. *)
Theorem stale_texture_after_failed_load :
  let s := step Reporting demoWorld (KeyPress Key_Right) (demoShowing Reporting) in
  reachable Reporting s
  /\ quitRequested s = false
  /\ (exists t, texture s = Some t /\ tex_created t = true)
  /\ image s = None
  /\ height (image s) = 0
  /\ F32.div (F32.of_int (width (image s))) (F32.of_int (height (image s)))
     = S754_nan
  /\ (exists d, paintGL s 800 600 = Some d
                /\ entry (draw_mvp d) 0 0 = S754_nan).
Proof.
  cbv zeta. split.
  { apply reach_step. apply reach_path. }
  split; [reflexivity |]. split.
  { eexists. split; reflexivity. }
  split; [reflexivity |]. split; [reflexivity |]. split; [reflexivity |].
  eexists. split; [vm_compute; reflexivity | reflexivity].
Qed.

(** The same move in grxiv.cpp leaves the same texture and the same null
    image, with the application asked to quit. *)
Lemma stale_texture_when_quitting :
  let s := step Quitting demoWorld (KeyPress Key_Right) (demoShowing Quitting) in
  (exists t, texture s = Some t /\ tex_created t = true)
  /\ image s = None
  /\ quitRequested s = true.
Proof.
  cbv zeta. split; [eexists; split; vm_compute; reflexivity |].
  split; vm_compute; reflexivity.
Qed.

Lemma imageBehindTexture_ext (s s' : State) :
  quitRequested s' = quitRequested s -> texture s' = texture s ->
  image s' = image s ->
  imageBehindTexture s -> imageBehindTexture s'.
Proof. unfold imageBehindTexture. intros -> -> ->. exact id. Qed.

Lemma loadImage_imageBehindTexture (w : World) (index : Z) (s : State) :
  imageBehindTexture s -> imageBehindTexture (loadImage Quitting w index s).
Proof.
  intros H. unfold loadImage.
  destruct ((index <? 0) || (index >=? size (imageFiles s))); [exact H |].
  unfold QImage_load. cbn -[updateTexture at_ size].
  match goal with
  | |- context [readImage w ?p] => destruct (readImage w p) as [d|]
  end; cbn -[updateTexture at_ size].
  - right. intros _.
    match goal with
    | |- isNull (image (updateTexture ?r ?w ?s1)) = _ =>
        destruct (updateTexture_frame r w s1) as (Hi & _);
        cbv zeta in Hi; rewrite Hi; reflexivity
    end.
  - left. reflexivity.
Qed.

Lemma step_imageBehindTexture (w : World) (e : Event) (s : State) :
  imageBehindTexture s -> imageBehindTexture (step Quitting w e s).
Proof.
  intros H. destruct e as [dy|k|ww wh]; cbn [step].
  - eapply imageBehindTexture_ext; [| | | exact H]; reflexivity.
  - destruct k; cbn [keyPressEvent].
    + eapply imageBehindTexture_ext; [| | | exact H]; reflexivity.
    + unfold loadPreviousImage.
      destruct (currentImageIndex s - 1 >=? 0);
        [now apply loadImage_imageBehindTexture | exact H].
    + unfold loadNextImage.
      destruct (currentImageIndex s + 1 <? size (imageFiles s));
        [now apply loadImage_imageBehindTexture | exact H].
    + exact H.
  - exact H.
Qed.

Lemma initializeGL_imageBehindTexture (g : GLSetup) (w : World) (s : State) :
  imageBehindTexture s -> imageBehindTexture (initializeGL Quitting g w s).
Proof.
  intros H. unfold initializeGL.
  destruct (negb (hasContext g)); [exact H |].
  assert (H1 : imageBehindTexture
                 (set_shaderProgram (Some {| isLinked := linkOk g |}) s))
    by (eapply imageBehindTexture_ext; [| | | exact H]; reflexivity).
  destruct (negb (vertexOk g && fragmentOk g && linkOk g)); [exact H1 |].
  unfold initializeBuffers.
  destruct (negb (vboOk g)); [exact H1 |].
  destruct (negb (eboOk g)); [exact H1 |].
  cbn [imageFiles set_shaderProgram image].
  destruct (imageFiles s); [exact H1 |].
  destruct (image s) as [d|] eqn:Hi; cbn [isNull].
  - right. intros _.
    match goal with
    | |- isNull (image (updateTexture ?r ?w ?s1)) = _ =>
        destruct (updateTexture_frame r w s1) as (Hu & _);
        cbv zeta in Hu; rewrite Hu; reflexivity
    end.
  - now apply loadImage_imageBehindTexture.
Qed.

(** X20. In grxiv.cpp, as long as the application has not been asked to
    quit, a state with a texture has a non-null image. *)
Lemma quitting_texture_has_image (s : State) :
  reachable Quitting s -> imageBehindTexture s.
Proof.
  induction 1 as [fs path g w | i g w _ | w e s _ IH].
  - apply initializeGL_imageBehindTexture. right.
    unfold ImageGLWidget_ofPath. destruct (fs path) as [entries| |]; cbn.
    + destruct (entryInfoList path entries); cbn; congruence.
    + congruence.
    + congruence.
  - apply initializeGL_imageBehindTexture. right.
    unfold ImageGLWidget_ofImage. destruct i; cbn; congruence.
  - now apply step_imageBehindTexture.
Qed.

(** ** A directory without images *)

Lemma nothing_listed (dir : string) (entries : list DirEntry) :
  (forall e, In e entries -> listed e = false) ->
  entryInfoList dir entries = [].
Proof.
  intros H. unfold entryInfoList.
  assert (E : filter listed entries = []).
  { induction entries as [|e l IH]; [reflexivity |].
    cbn. rewrite (H e (or_introl eq_refl)). apply IH.
    intros x Hx. apply H. now right. }
  now rewrite E.
Qed.

(** For a directory in which no entry is listed, [main] does not return: it
    shows the window and enters the event loop, with an empty file list and
    no texture. grxiv.cpp has called [QApplication::quit()] by then, the
    reporting revision has recorded the failure. *)
Lemma directory_without_images (rev : Revision) (fs : FileSystem)
  (input : Stdin) (path : string) (rest : list string)
  (entries : list DirEntry) :
  fs path = Directory entries ->
  (forall e, In e entries -> listed e = false) ->
  exists s,
    main rev fs input (path :: rest) = Shown s
    /\ imageFiles s = []
    /\ texture s = None
    /\ quitRequested s
       = match rev with Quitting => true | Reporting => false end
    /\ reports s
       = match rev with
         | Quitting => []
         | Reporting => [NoImagesInDirectory path]
         end.
Proof.
  intros Hfs Hnone. eexists. split; [reflexivity |].
  unfold ImageGLWidget_ofPath. rewrite Hfs.
  cbn [set_imageFiles imageFiles].
  rewrite (nothing_listed path entries Hnone).
  destruct rev; repeat split.
Qed.

(** C7, on the code: for [/notes], which holds only c.txt, [main] of either
    revision returns no exit code before the window: the window is shown and
    the event loop entered. *)
Theorem empty_directory_shows_window :
  (exists s, main Quitting demoFs noStdin ["/notes"%string] = Shown s
             /\ imageFiles s = [] /\ quitRequested s = true
             /\ reports s = [])
  /\ (exists s, main Reporting demoFs noStdin ["/notes"%string] = Shown s
                /\ imageFiles s = [] /\ quitRequested s = false
                /\ reports s = [NoImagesInDirectory "/notes"])
  /\ (forall rev code diagnostics,
         main rev demoFs noStdin ["/notes"%string] <> Returned code diagnostics).
Proof.
  split; [eexists; repeat split |].
  split; [eexists; repeat split |].
  intros rev code diagnostics. destruct rev; discriminate.
Qed.

(** ** The listing of a directory *)

Lemma wildcard_literal (lit s : string) :
  noStar lit = true ->
  wildcardMatch lit s = true <-> lower s = lower lit.
Proof.
  revert s. induction lit as [|c lit IH]; intros s Hn.
  - destruct s; cbn; split; congruence.
  - cbn in Hn. apply andb_prop in Hn as [Hc Hn].
    apply negb_true_iff in Hc. cbn [wildcardMatch]. rewrite Hc.
    destruct s as [|d s]; cbn [lower]; [split; discriminate |].
    rewrite andb_true_iff, Ascii.eqb_eq, (IH s Hn).
    split.
    + intros [-> ->]. reflexivity.
    + intros H. injection H as H1 H2. now split.
Qed.

Lemma wildcard_star_nil (p : string) :
  wildcardMatch (String "*" p) "" = wildcardMatch p "".
Proof. cbn. apply orb_false_r. Qed.

Lemma wildcard_star_cons (p : string) (c : ascii) (s : string) :
  wildcardMatch (String "*" p) (String c s)
  = wildcardMatch p (String c s) || wildcardMatch (String "*" p) s.
Proof. reflexivity. Qed.

Lemma wildcard_star (p s : string) :
  wildcardMatch (String "*" p) s = true
  <-> exists pre suf, s = pre ++ suf /\ wildcardMatch p suf = true.
Proof.
  induction s as [|c s IH].
  - rewrite wildcard_star_nil. split.
    + intros H. exists "", "". now split.
    + intros (pre & suf & E & H).
      destruct pre; [| discriminate]. cbn in E. now subst suf.
  - rewrite wildcard_star_cons, orb_true_iff, IH. split.
    + intros [H | (pre & suf & E & H)].
      * exists "", (String c s). now split.
      * exists (String c pre), suf. cbn. now rewrite E.
    + intros (pre & suf & E & H).
      destruct pre as [|c' pre]; cbn in E.
      * left. now rewrite E.
      * right. injection E as _ E. now exists pre, suf.
Qed.

Lemma toLower_dot (c : ascii) : toLower c = "."%char -> c = "."%char.
Proof.
  destruct c as [[] [] [] [] [] [] [] []]; vm_compute; congruence.
Qed.

(** What a filter [*.ext] accepts. *)
Lemma wildcard_extension (ext name : string) :
  noStar ext = true -> lower ext = ext ->
  wildcardMatch ("*." ++ ext) name = true <-> hasExtension ext name.
Proof.
  intros Hn Hl. change ("*." ++ ext) with (String "*" (String "." ext)).
  rewrite wildcard_star. unfold hasExtension. split.
  - intros (pre & suf & E & H).
    apply wildcard_literal in H; [| exact Hn].
    destruct suf as [|c suf]; [discriminate |].
    cbn [lower] in H. injection H as Hc Hs.
    change (toLower ".") with "."%char in Hc. apply toLower_dot in Hc. subst c.
    exists pre, suf. split; [exact E | congruence].
  - intros (stem & suffix & E & H).
    exists stem, (String "." suffix). split; [exact E |].
    apply wildcard_literal; [exact Hn |].
    cbn [lower]. change (toLower ".") with "."%char. congruence.
Qed.

Lemma filters_extensions (name : string) :
  existsb (fun p => wildcardMatch p name) nameFilters = true
  <-> hasImageExtension name.
Proof.
  change nameFilters with (map (fun ext => "*." ++ ext) extensions).
  unfold hasImageExtension. rewrite existsb_exists. split.
  - intros (p & Hp & Hm). apply in_map_iff in Hp as (ext & <- & Hin).
    exists ext. split; [exact Hin |].
    apply wildcard_extension; [| | exact Hm];
      cbn in Hin; repeat (destruct Hin as [<- | Hin]; [reflexivity |]); contradiction.
  - intros (ext & Hin & Hx). exists ("*." ++ ext). split.
    + apply in_map_iff. now exists ext.
    + apply wildcard_extension; [| | exact Hx];
        cbn in Hin; repeat (destruct Hin as [<- | Hin]; [reflexivity |]); contradiction.
Qed.

Lemma listed_spec (e : DirEntry) :
  listed e = true
  <-> de_isFile e = true /\ de_hidden e = false /\ hasImageExtension (de_name e).
Proof.
  unfold listed. rewrite !andb_true_iff, negb_true_iff, filters_extensions.
  tauto.
Qed.

Lemma ascii_compare_Eq (a b : ascii) : Ascii.compare a b = Eq <-> a = b.
Proof.
  split; [apply Ascii.compare_eq_iff |].
  intros ->. unfold Ascii.compare. apply N.compare_refl.
Qed.

Lemma string_compare_trans_le (a b c : string) :
  String.compare a b <> Gt -> String.compare b c <> Gt ->
  String.compare a c <> Gt.
Proof.
  revert b c. induction a as [|x a IH]; intros [|y b] [|z c]; cbn;
    try congruence.
  destruct (Ascii.compare x y) eqn:Exy; try congruence;
    destruct (Ascii.compare y z) eqn:Eyz; try congruence.
  - apply ascii_compare_Eq in Exy, Eyz. subst.
    rewrite (proj2 (ascii_compare_Eq z z) eq_refl). apply IH.
  - apply ascii_compare_Eq in Exy. subst. now rewrite Eyz.
  - apply ascii_compare_Eq in Eyz. subst. now rewrite Exy.
  - unfold Ascii.compare in *. rewrite N.compare_lt_iff in Exy, Eyz.
    assert (H : (N_of_ascii x < N_of_ascii z)%N) by lia.
    apply N.compare_lt_iff in H. now rewrite H.
Qed.

Lemma nameLe_trans (a b c : string) : nameLe a b -> nameLe b c -> nameLe a c.
Proof.
  unfold nameLe, String.leb. intros H1 H2.
  pose proof (string_compare_trans_le a b c) as T.
  destruct (String.compare a b); try discriminate;
    destruct (String.compare b c); try discriminate;
    destruct (String.compare a c); try reflexivity;
    exfalso; apply T; congruence.
Qed.

Lemma insertByName_perm (e : DirEntry) (l : list DirEntry) :
  Permutation (insertByName e l) (e :: l).
Proof.
  induction l as [|x l IH]; cbn; [reflexivity |].
  destruct (String.leb (de_name e) (de_name x)); [reflexivity |].
  rewrite IH. apply perm_swap.
Qed.

Lemma sortByName_perm (l : list DirEntry) : Permutation (sortByName l) l.
Proof.
  induction l as [|x l IH]; cbn; [reflexivity |].
  rewrite insertByName_perm. now constructor.
Qed.

Lemma insertByName_sorted (e : DirEntry) (l : list DirEntry) :
  StronglySorted entryLe l -> StronglySorted entryLe (insertByName e l).
Proof.
  induction 1 as [|x l Hs IH Hx]; cbn.
  - constructor; constructor.
  - destruct (String.leb (de_name e) (de_name x)) eqn:E.
    + constructor; [now constructor |].
      constructor; [exact E |].
      eapply Forall_impl; [| exact Hx].
      intros y Hy. eapply nameLe_trans; [exact E | exact Hy].
    + constructor; [exact IH |].
      rewrite insertByName_perm. constructor; [| exact Hx].
      destruct (String.leb_total (de_name e) (de_name x)) as [T|T];
        [congruence | exact T].
Qed.

Lemma sortByName_sorted (l : list DirEntry) :
  StronglySorted entryLe (sortByName l).
Proof.
  induction l as [|x l IH]; cbn; [constructor | now apply insertByName_sorted].
Qed.

Lemma entryInfoList_names (dir : string) (entries : list DirEntry) :
  map fileName (entryInfoList dir entries)
  = map de_name (sortByName (filter listed entries)).
Proof. unfold entryInfoList. rewrite map_map. reflexivity. Qed.

Lemma names_sorted (l : list DirEntry) :
  StronglySorted entryLe l -> StronglySorted nameLe (map de_name l).
Proof.
  induction 1 as [|x l Hs IH Hx]; cbn; constructor; [exact IH |].
  apply Forall_map. exact Hx.
Qed.

(** No event touches the file list. *)
Lemma loadImage_files (rev : Revision) (w : World) (index : Z) (s : State) :
  imageFiles (loadImage rev w index s) = imageFiles s.
Proof.
  unfold loadImage.
  destruct ((index <? 0) || (index >=? size (imageFiles s)))%Z; [reflexivity |].
  unfold QImage_load.
  destruct rev; cbn -[updateTexture at_ size];
    match goal with
    | |- context [readImage w ?p] => destruct (readImage w p) as [d|]
    end;
    cbn -[updateTexture at_ size]; try reflexivity;
    match goal with
    | |- imageFiles (updateTexture ?r ?w ?s1) = _ =>
        destruct (updateTexture_frame r w s1) as (_ & _ & H & _);
        cbv zeta in H; rewrite H; reflexivity
    end.
Qed.

Lemma step_files (rev : Revision) (w : World) (e : Event) (s : State) :
  imageFiles (step rev w e s) = imageFiles s.
Proof.
  destruct e as [dy|k|ww wh]; cbn [step]; try reflexivity.
  destruct k; cbn [keyPressEvent]; try reflexivity.
  - unfold loadPreviousImage.
    destruct (currentImageIndex s - 1 >=? 0)%Z; [apply loadImage_files | reflexivity].
  - unfold loadNextImage.
    destruct (currentImageIndex s + 1 <? size (imageFiles s))%Z;
      [apply loadImage_files | reflexivity].
Qed.

Lemma run_files (rev : Revision) (es : list (World * Event)) (s : State) :
  imageFiles (run rev es s) = imageFiles s.
Proof.
  revert s. induction es as [|[w e] es IH]; intros s; cbn [run]; [reflexivity |].
  rewrite IH. apply step_files.
Qed.

Lemma initializeGL_files (rev : Revision) (g : GLSetup) (w : World) (s : State) :
  imageFiles (initializeGL rev g w s) = imageFiles s.
Proof.
  assert (B : forall s0, imageFiles (initializeBuffers rev g w s0) = imageFiles s0).
  { intros s0. unfold initializeBuffers.
    destruct (negb (vboOk g)); [reflexivity |].
    destruct (negb (eboOk g)); [reflexivity |].
    destruct (imageFiles s0) eqn:E; [now rewrite E |]. rewrite <- E.
    destruct rev; [| apply loadImage_files].
    destruct (isNull (image s0)); [apply loadImage_files |].
    match goal with
    | |- imageFiles (updateTexture ?r ?w ?s1) = _ =>
        destruct (updateTexture_frame r w s1) as (_ & _ & H & _);
        cbv zeta in H; rewrite H; reflexivity
    end. }
  unfold initializeGL.
  destruct (negb (hasContext g)); [reflexivity |].
  destruct rev.
  - destruct (negb (vertexOk g && fragmentOk g && linkOk g));
      [reflexivity | now rewrite B].
  - destruct (negb (vertexOk g)); [reflexivity |].
    destruct (negb (fragmentOk g)); [reflexivity |].
    destruct (negb (linkOk g)); [reflexivity | now rewrite B].
Qed.

Lemma ImageGLWidget_ofPath_directory (rev : Revision) (fs : FileSystem) (path : string)
  (entries : list DirEntry) :
  fs path = Directory entries ->
  imageFiles (ImageGLWidget_ofPath rev fs path) = entryInfoList path entries.
Proof.
  intros H. unfold ImageGLWidget_ofPath. rewrite H. cbn [set_imageFiles imageFiles].
  destruct (entryInfoList path entries); destruct rev; reflexivity.
Qed.

(** C6, as the claim has it, fails: in [/mixed] the hidden file .b.png is a
    regular file with extension png, and it is not in the list. *)
Lemma hidden_image_not_listed :
  demoFs "/mixed" = Directory [plainFile "a.png"; hiddenFile ".b.png"]
  /\ de_isFile (hiddenFile ".b.png") = true
  /\ hasImageExtension (de_name (hiddenFile ".b.png"))
  /\ map fileName (imageFiles (ImageGLWidget_ofPath Quitting demoFs "/mixed")) = ["a.png"]
  /\ ~ In ".b.png" (map fileName (imageFiles (ImageGLWidget_ofPath Quitting demoFs "/mixed")))
  /\ ~ In ".b.png" (map fileName (imageFiles (ImageGLWidget_ofPath Reporting demoFs "/mixed"))).
Proof.
  split; [reflexivity |]. split; [reflexivity |]. split.
  { exists "png". split; [cbn; tauto |]. exists ".b", "png". now split. }
  split; [reflexivity |].
  split; cbn; intros [H | []]; discriminate.
Qed.

(** C6, amended. For a directory the file list holds exactly the entries
    that are files, are not hidden, and have one of the extensions jpg, jpeg,
    png, bmp, gif in any mix of cases, once each; it is in ascending order of
    file name; and no event of the session changes it. *)
Theorem directory_listing :
  forall (rev : Revision) (fs : FileSystem) (path : string)
         (entries : list DirEntry),
    fs path = Directory entries ->
    let files := imageFiles (ImageGLWidget_ofPath rev fs path) in
    (forall name,
        In name (map fileName files)
        <-> exists e, In e entries /\ de_name e = name
                      /\ de_isFile e = true /\ de_hidden e = false
                      /\ hasImageExtension name)
    /\ Permutation (map fileName files) (map de_name (filter listed entries))
    /\ StronglySorted nameLe (map fileName files)
    /\ (forall g w es,
           imageFiles (run rev es (initializeGL rev g w (ImageGLWidget_ofPath rev fs path)))
           = files).
Proof.
  intros rev fs path entries Hfs files.
  assert (Hfiles : files = entryInfoList path entries)
    by (apply ImageGLWidget_ofPath_directory; exact Hfs).
  assert (Hperm : Permutation (map fileName files)
                    (map de_name (filter listed entries))).
  { rewrite Hfiles, entryInfoList_names.
    apply Permutation_map, sortByName_perm. }
  split; [| split; [exact Hperm | split]].
  - intros name. split.
    + intros Hin. apply (Permutation_in _ Hperm) in Hin.
      apply in_map_iff in Hin as (e & Hn & He).
      apply filter_In in He as [He Hl]. apply listed_spec in Hl as (F & Hd & X).
      exists e. rewrite <- Hn. auto.
    + intros (e & He & Hn & F & Hd & X).
      apply (Permutation_in _ (Permutation_sym Hperm)).
      apply in_map_iff. exists e. split; [exact Hn |].
      apply filter_In. split; [exact He |].
      apply listed_spec. rewrite Hn. auto.
  - rewrite Hfiles, entryInfoList_names. apply names_sorted, sortByName_sorted.
  - intros g w es. rewrite run_files, initializeGL_files. reflexivity.
Qed.

Lemma directory_listing_witness :
  map fileName (imageFiles (ImageGLWidget_ofPath Quitting demoFs "/pics"))
  = ["a.png"; "b.jpg"; "z.gif"]
  /\ StronglySorted nameLe
       (map fileName (imageFiles (ImageGLWidget_ofPath Quitting demoFs "/pics"))).
Proof.
  split; [reflexivity |].
  apply (directory_listing Quitting demoFs "/pics"
           [plainFile "z.gif"; plainFile "c.txt"; plainFile "b.jpg";
            plainFile "a.png"]).
  reflexivity.
Defined.

(** * Further properties *)

(** ** Tools *)

Lemma run_invariant (rev : Revision) (P : State -> Prop) :
  (forall w e s, P s -> P (step rev w e s)) ->
  forall es s, P s -> P (run rev es s).
Proof.
  intros Hstep es. induction es as [|[w e] es IH]; intros s Hs; cbn [run].
  - exact Hs.
  - apply IH, Hstep, Hs.
Qed.

Lemma run_reachable (rev : Revision) (es : list (World * Event)) (s : State) :
  reachable rev s -> reachable rev (run rev es s).
Proof.
  apply run_invariant. intros w e s0 H. now apply reach_step.
Qed.

(** The three ways through [loadImage]. *)
Lemma loadImage_cases (rev : Revision) (w : World) (index : Z) (s : State) :
  loadImage rev w index s
  = if (index <? 0) || (index >=? size (imageFiles s)) then s
    else
      match readImage w (pathAt s index) with
      | None =>
          fail rev (FailedToLoad (pathAt s index))
            (set_image None (retitle rev index s))
      | Some d =>
          updateTexture rev w
            (set_zoomLevel F32.one
               (set_image (convertToFormat Format_ARGB32 (Some d))
                  (set_image (Some d) (retitle rev index s))))
      end.
Proof.
  unfold loadImage.
  destruct ((index <? 0) || (index >=? size (imageFiles s))); [reflexivity |].
  unfold QImage_load, pathAt, retitle.
  destruct rev; cbn -[updateTexture at_ size];
    destruct (readImage w (absoluteFilePath (at_ (imageFiles s) index)));
    reflexivity.
Qed.

(** An event is a change of zoom, a close, a load, or nothing. *)
Lemma step_invariant (rev : Revision) (P : State -> Prop) :
  (forall z s, P s -> P (set_zoomLevel z s)) ->
  (forall s, P s -> P (close s)) ->
  (forall w i s, P s -> P (loadImage rev w i s)) ->
  forall w e s, P s -> P (step rev w e s).
Proof.
  intros Hz Hc Hl w e s Hs. destruct e as [dy|k|ww wh]; cbn [step].
  - unfold wheelEvent. apply Hz, Hz, Hs.
  - destruct k; cbn [keyPressEvent].
    + apply Hc, Hs.
    + unfold loadPreviousImage.
      destruct (currentImageIndex s - 1 >=? 0); [apply Hl, Hs | exact Hs].
    + unfold loadNextImage.
      destruct (currentImageIndex s + 1 <? size (imageFiles s));
        [apply Hl, Hs | exact Hs].
    + exact Hs.
  - exact Hs.
Qed.

(** [initializeGL] sets the shader program and then, at most, loads the first
    file or uploads the image it was given. *)
Lemma initializeGL_invariant (rev : Revision) (P : State -> Prop) :
  (forall p s, P s -> P (set_shaderProgram p s)) ->
  (forall w i s, P s -> P (loadImage rev w i s)) ->
  (forall w s d,
      P s -> image s = Some d ->
      P (updateTexture rev w
           (set_image (convertToFormat Format_ARGB32 (Some d)) s))) ->
  forall g w s, P s -> P (initializeGL rev g w s).
Proof.
  intros Hp Hl Hu g w s Hs.
  assert (B : forall s0, P s0 -> P (initializeBuffers rev g w s0)).
  { intros s0 H0. unfold initializeBuffers.
    destruct (negb (vboOk g)); [exact H0 |].
    destruct (negb (eboOk g)); [exact H0 |].
    destruct (imageFiles s0); [exact H0 |].
    destruct rev; [| apply Hl, H0].
    destruct (image s0) as [d|] eqn:Hi; cbn [isNull]; [| apply Hl, H0].
    apply Hu; assumption. }
  unfold initializeGL.
  destruct (negb (hasContext g)); [exact Hs |].
  destruct rev.
  - destruct (negb (vertexOk g && fragmentOk g && linkOk g));
      [apply Hp, Hs | apply B, Hp, Hs].
  - destruct (negb (vertexOk g)); [apply Hp, Hs |].
    destruct (negb (fragmentOk g)); [apply Hp, Hs |].
    destruct (negb (linkOk g)); [apply Hp, Hs | apply B, Hp, Hs].
Qed.

(** What [updateTexture] leaves in the texture pointer and hands out as the
    next GL name. *)
Lemma updateTexture_texture (rev : Revision) (w : World) (s : State) :
  texture (updateTexture rev w s)
  = match image s with
    | Some d =>
        if textureCreated w d then Some (uploaded (glNext s) d) else None
    | None => None
    end
  /\ glNext (updateTexture rev w s)
     = match image s with
       | Some d => if textureCreated w d then S (glNext s) else glNext s
       | None => glNext s
       end.
Proof.
  unfold updateTexture, createTexture, releaseTexture, newTexture.
  destruct (texture s) as [t|] eqn:Ht; cbn;
    (destruct (image s) as [d|]; cbn; [| split; congruence]);
    destruct (textureCreated w d); destruct rev; cbn; split; reflexivity.
Qed.

Lemma updateTexture_title (rev : Revision) (w : World) (s : State) :
  windowTitle (updateTexture rev w s) = windowTitle s
  /\ (rev = Quitting -> reports (updateTexture rev w s) = reports s).
Proof.
  unfold updateTexture, createTexture, releaseTexture, newTexture.
  destruct (texture s) as [t|]; cbn;
    (destruct (image s) as [d|]; cbn; [| split; reflexivity]);
    destruct (textureCreated w d); destruct rev; cbn; split;
    congruence || reflexivity.
Qed.

Lemma reachable_invariant (rev : Revision) (P : State -> Prop) :
  (forall fs path, P (ImageGLWidget_ofPath rev fs path)) ->
  (rev = Quitting -> forall i, P (ImageGLWidget_ofImage i)) ->
  (forall z s, P s -> P (set_zoomLevel z s)) ->
  (forall s, P s -> P (close s)) ->
  (forall p s, P s -> P (set_shaderProgram p s)) ->
  (forall w i s, P s -> P (loadImage rev w i s)) ->
  (forall w s d,
      P s -> image s = Some d ->
      P (updateTexture rev w
           (set_image (convertToFormat Format_ARGB32 (Some d)) s))) ->
  forall s, reachable rev s -> P s.
Proof.
  intros Hpath Himg Hz Hc Hp Hl Hu s Hr.
  induction Hr as [fs path g w | i g w Hq | w e s _ IH].
  - apply initializeGL_invariant; auto.
  - apply initializeGL_invariant; auto.
  - apply step_invariant; auto.
Qed.

(** A property of single fields passes through [loadImage] when it passes
    through each assignment the function makes. *)
Lemma loadImage_invariant (rev : Revision) (P : State -> Prop) :
  (forall index s, P s -> P (retitle rev index s)) ->
  (forall i s, P s -> P (set_image i s)) ->
  (forall z s, P s -> P (set_zoomLevel z s)) ->
  (forall r s, P s -> P (fail rev r s)) ->
  (forall w s, P s -> P (updateTexture rev w s)) ->
  forall w i s, P s -> P (loadImage rev w i s).
Proof.
  intros Ht Hi Hz Hf Hu w i s Hs. rewrite loadImage_cases.
  destruct ((i <? 0) || (i >=? size (imageFiles s))); [exact Hs |].
  destruct (readImage w (pathAt s i)).
  - apply Hu, Hz, Hi, Hi, Ht, Hs.
  - apply Hf, Hi, Ht, Hs.
Qed.

(** ** How [main] ends *)


Lemma main_shown_reachable (rev : Revision) (fs : FileSystem) (input : Stdin)
  (args : list string) (s0 : State) (g : GLSetup) (w : World) :
  main rev fs input args = Shown s0 ->
  reachable rev (initializeGL rev g w s0).
Proof.
  unfold main. destruct args as [|path rest].
  - destruct rev; [| discriminate].
    destruct (stdinData input); [discriminate |].
    destruct (negb (canRead input)); [discriminate |].
    destruct (isNull (readResult input)); [discriminate |].
    intros H. injection H as <-. now apply reach_image.
  - intros H. injection H as <-. apply reach_path.
Qed.

(** ** One way to surface a failure *)

(** X2. grxiv.cpp never records a diagnostic, and the reporting revision
    never asks the application to quit: in every state of a session. *)
Theorem failures_surface_one_way :
  forall (rev : Revision) (s : State),
    reachable rev s ->
    match rev with
    | Quitting => reports s = []
    | Reporting => quitRequested s = false
    end.
Proof.
  intros rev.
  set (P := fun s => match rev with
                     | Quitting => reports s = []
                     | Reporting => quitRequested s = false
                     end).
  apply (reachable_invariant rev P); unfold P.
  - intros fs path. unfold ImageGLWidget_ofPath.
    destruct (fs path) as [entries| |]; cbn.
    + destruct (entryInfoList path entries); destruct rev; reflexivity.
    + destruct rev; reflexivity.
    + destruct rev; reflexivity.
  - intros -> i. unfold ImageGLWidget_ofImage. destruct i; reflexivity.
  - intros z s H. exact H.
  - intros s H. exact H.
  - intros p s H. exact H.
  - apply (loadImage_invariant rev P); unfold P.
    + intros index s H. destruct rev; exact H.
    + intros i s H. exact H.
    + intros z s H. exact H.
    + intros r s H. destruct rev; exact H.
    + intros w s H. destruct rev.
      * destruct (updateTexture_title Quitting w s) as [_ Hr].
        now rewrite (Hr eq_refl).
      * destruct (updateTexture_frame Reporting w s) as (_ & _ & _ & _ & _ & Hq & _).
        cbv zeta in Hq. now rewrite Hq.
  - intros w s d H _. destruct rev.
    + destruct (updateTexture_title Quitting w
                  (set_image (convertToFormat Format_ARGB32 (Some d)) s)) as [_ Hr].
      now rewrite (Hr eq_refl).
    + destruct (updateTexture_frame Reporting w
                  (set_image (convertToFormat Format_ARGB32 (Some d)) s))
        as (_ & _ & _ & _ & _ & Hq & _).
      cbv zeta in Hq. now rewrite Hq.
Qed.

Lemma failures_surface_one_way_witness :
  reports (step Quitting demoWorld (KeyPress Key_Right) (demoShowing Quitting))
  = []
  /\ quitRequested
       (step Reporting demoWorld (KeyPress Key_Right) (demoShowing Reporting))
     = false.
Proof.
  split.
  - apply (failures_surface_one_way Quitting
             (step Quitting demoWorld (KeyPress Key_Right) (demoShowing Quitting))).
    apply reach_step, reach_path.
  - apply (failures_surface_one_way Reporting
             (step Reporting demoWorld (KeyPress Key_Right) (demoShowing Reporting))).
    apply reach_step, reach_path.
Defined.

(** ** Closing the window *)

Lemma loadImage_windowClosed (rev : Revision) (w : World) (i : Z) (s : State) :
  windowClosed (loadImage rev w i s) = windowClosed s.
Proof.
  apply (loadImage_invariant rev (fun s' => windowClosed s' = windowClosed s));
    try (intros; assumption); try reflexivity.
  - intros index s0 H. destruct rev; exact H.
  - intros r s0 H. destruct rev; exact H.
  - intros w0 s0 H.
    destruct (updateTexture_frame rev w0 s0) as (_ & _ & _ & _ & _ & _ & Hc).
    cbv zeta in Hc. congruence.
Qed.

(** X3. The window has been asked to close after a run of events exactly
    when it had been before or the run holds a press of Q; no wheel event,
    arrow key, load or failure closes it, and nothing reopens it. *)
Theorem closed_exactly_by_Q :
  forall (rev : Revision) (es : list (World * Event)) (s : State),
    windowClosed (run rev es s) = windowClosed s || existsb isQuitKey es.
Proof.
  intros rev es. induction es as [|[w e] es IH]; intros s; cbn [run existsb].
  - now rewrite orb_false_r.
  - rewrite IH. unfold isQuitKey at 2. cbn [snd].
    destruct e as [dy|k|ww wh]; cbn [step].
    + reflexivity.
    + destruct k; cbn [keyPressEvent].
      * cbn. now rewrite orb_true_r.
      * unfold loadPreviousImage.
        destruct (currentImageIndex s - 1 >=? 0);
          [now rewrite loadImage_windowClosed | reflexivity].
      * unfold loadNextImage.
        destruct (currentImageIndex s + 1 <? size (imageFiles s));
          [now rewrite loadImage_windowClosed | reflexivity].
      * reflexivity.
    + reflexivity.
Qed.

(** ** The index and the list *)

Lemma size_nonneg (l : list QFileInfo) : 0 <= size l.
Proof. unfold size. lia. Qed.

Lemma loadImage_index (rev : Revision) (w : World) (i : Z) (s : State) :
  let s' := loadImage rev w i s in
  (s' = s \/ (inBounds i s /\ currentImageIndex s' = i))
  /\ imageFiles s' = imageFiles s.
Proof.
  cbv zeta. split; [| apply loadImage_files].
  rewrite loadImage_cases.
  destruct (Z.ltb_spec i 0) as [Hlt|Hge]; cbn [orb]; [now left |].
  destruct (Z.geb_spec i (size (imageFiles s))) as [Hhi|Hlo]; [now left |].
  right. split; [unfold inBounds; lia |].
  destruct (readImage w (pathAt s i)) as [d|].
  - match goal with
    | |- currentImageIndex (updateTexture ?r ?w ?s1) = _ =>
        destruct (updateTexture_frame r w s1) as (_ & _ & _ & H & _);
        cbv zeta in H; rewrite H
    end.
    destruct rev; reflexivity.
  - destruct rev; reflexivity.
Qed.

(** X4. In every state of a session that [main] starts, the index is -1 or a
    position of the file list, so [imageFiles[currentImageIndex]] is never
    read out of range; and whenever the widget holds a texture the index is a
    position, not -1. *)
Theorem index_stays_in_list :
  forall (rev : Revision) (fs : FileSystem) (input : Stdin)
         (args : list string) (s0 : State) (g : GLSetup) (w : World)
         (es : list (World * Event)),
    main rev fs input args = Shown s0 ->
    indexOk (run rev es (initializeGL rev g w s0)).
Proof.
  intros rev fs input args s0 g w es Hmain.
  set (P := fun s => indexOk s
                     /\ (image s <> None -> 0 <= currentImageIndex s)).
  assert (Hload : forall w0 i s, P s -> P (loadImage rev w0 i s)).
  { intros w0 i s Hs.
    destruct (loadImage_index rev w0 i s) as [[E | [Hb Hi]] Hf]; cbv zeta in *.
    - now rewrite E.
    - unfold P, indexOk, inBounds in *. rewrite Hf, Hi. lia. }
  assert (Hext : forall s s',
             currentImageIndex s' = currentImageIndex s ->
             imageFiles s' = imageFiles s -> texture s' = texture s ->
             image s' = image s -> P s -> P s').
  { unfold P, indexOk. intros s s' -> -> -> ->. exact id. }
  assert (H0 : P s0).
  { unfold main in Hmain. destruct args as [|path rest].
    - destruct rev; [| discriminate].
      destruct (stdinData input); [discriminate |].
      destruct (negb (canRead input)); [discriminate |].
      destruct (readResult input) as [d|]; [| discriminate].
      injection Hmain as <-. unfold P, indexOk. cbn. repeat split; lia.
    - injection Hmain as <-. unfold P, indexOk, ImageGLWidget_ofPath.
      destruct (fs path) as [entries| |]; cbn -[size].
      + pose proof (size_nonneg (entryInfoList path entries)).
        destruct (entryInfoList path entries); destruct rev; cbn -[size];
          repeat split; try lia; congruence.
      + repeat split; cbn; try lia; congruence.
      + destruct rev; cbn; repeat split; try lia; congruence. }
  assert (H1 : P (initializeGL rev g w s0)).
  { apply initializeGL_invariant; [| exact Hload | | exact H0].
    - intros p s. apply Hext; reflexivity.
    - intros w0 s d [Hs Hi] Himg.
      destruct (updateTexture_frame rev w0
                  (set_image (convertToFormat Format_ARGB32 (Some d)) s))
        as (_ & _ & Hf & Hx & _).
      cbv zeta in Hf, Hx.
      cbn [set_image imageFiles currentImageIndex] in Hf, Hx.
      assert (0 <= currentImageIndex s) by (apply Hi; congruence).
      unfold P, indexOk in *. rewrite Hf, Hx. repeat split; lia. }
  apply (run_invariant rev P); [| exact H1].
  apply step_invariant; [| | exact Hload].
  - intros z s. apply Hext; reflexivity.
  - intros s. apply Hext; reflexivity.
Qed.

Lemma index_stays_in_list_witness :
  indexOk
    (run Reporting [(demoWorld, KeyPress Key_Right);
                    (demoWorld, KeyPress Key_Right);
                    (demoWorld, KeyPress Key_Right)]
       (initializeGL Reporting goodSetup demoWorld
          (ImageGLWidget_ofPath Reporting demoFs "/pics"))).
Proof.
  apply (index_stays_in_list Reporting demoFs noStdin ["/pics"%string]).
  reflexivity.
Defined.

(** ** What the texture is made of *)

Lemma textureOk_ext (s s' : State) :
  texture s' = texture s -> glNext s' = glNext s -> image s' = image s ->
  textureOk s -> textureOk s'.
Proof. unfold textureOk. intros -> -> ->. exact id. Qed.

(** After [updateTexture] on a state whose image, if any, is ARGB32. *)
Lemma updateTexture_textureOk (rev : Revision) (w : World) (s : State) :
  (forall d, image s = Some d -> img_format d = Format_ARGB32) ->
  textureOk (updateTexture rev w s).
Proof.
  intros Hfmt. unfold textureOk.
  destruct (updateTexture_texture rev w s) as [Ht Hn].
  destruct (updateTexture_frame rev w s) as (Hi & _). cbv zeta in Hi.
  rewrite Ht, Hn, Hi.
  destruct (image s) as [d|]; [| exact I].
  destruct (textureCreated w d); [| exact I].
  cbn. repeat split; [lia | now apply Hfmt | congruence].
Qed.

Lemma loadImage_textureOk (rev : Revision) (w : World) (i : Z) (s : State) :
  textureOk s -> textureOk (loadImage rev w i s).
Proof.
  intros H. rewrite loadImage_cases.
  destruct ((i <? 0) || (i >=? size (imageFiles s))); [exact H |].
  destruct (readImage w (pathAt s i)) as [d|].
  - apply updateTexture_textureOk. cbn. intros d0 E. injection E as <-. reflexivity.
  - unfold textureOk in *.
    replace (texture (fail rev (FailedToLoad (pathAt s i))
                        (set_image None (retitle rev i s))))
      with (texture s) by (destruct rev; reflexivity).
    replace (glNext (fail rev (FailedToLoad (pathAt s i))
                       (set_image None (retitle rev i s))))
      with (glNext s) by (destruct rev; reflexivity).
    replace (image (fail rev (FailedToLoad (pathAt s i))
                      (set_image None (retitle rev i s))))
      with (@None ImageData) by (destruct rev; reflexivity).
    destruct (texture s) as [t|]; [| exact I].
    destruct H as (H1 & H2 & H3 & _). repeat split; try assumption.
    intros d0 E. discriminate.
Qed.

Lemma reachable_textureOk (rev : Revision) (s : State) :
  reachable rev s -> textureOk s.
Proof.
  apply (reachable_invariant rev textureOk).
  - intros fs path. unfold ImageGLWidget_ofPath, textureOk.
    destruct (fs path) as [entries| |]; cbn.
    + destruct (entryInfoList path entries); destruct rev; exact I.
    + exact I.
    + destruct rev; exact I.
  - intros _ i. unfold ImageGLWidget_ofImage, textureOk. destruct i; exact I.
  - intros z s0. apply textureOk_ext; reflexivity.
  - intros s0. apply textureOk_ext; reflexivity.
  - intros p s0. apply textureOk_ext; reflexivity.
  - intros w i s0. apply loadImage_textureOk.
  - intros w s0 d _ _. apply updateTexture_textureOk.
    cbn. intros d0 E. injection E as <-. reflexivity.
Qed.

(** X5. In every state of a session, a texture the widget holds was created,
    has the trilinear minification filter, the linear magnification filter
    and mip levels, was uploaded from ARGB32 data, and, when the current
    image is not null, from that very image. *)
Theorem texture_is_upload_of_image :
  forall (rev : Revision) (s : State) (t : QOpenGLTexture),
    reachable rev s ->
    texture s = Some t ->
    tex_created t = true
    /\ tex_min t = LinearMipMapLinear
    /\ tex_mag t = Linear
    /\ tex_mipmaps t = true
    /\ img_format (tex_source t) = Format_ARGB32
    /\ (forall d, image s = Some d -> tex_source t = d).
Proof.
  intros rev s t Hr Ht.
  pose proof (reachable_textureOk rev s Hr) as H. unfold textureOk in H.
  rewrite Ht in H. destruct H as (_ & Hu & Hf & Hi).
  repeat split; try assumption; rewrite Hu; reflexivity.
Qed.

Lemma texture_is_upload_of_image_witness :
  let d := {| img_width := 600; img_height := 800;
              img_format := Format_ARGB32; img_pixels := [] |} in
  texture (demoShowing Quitting) = Some (uploaded 1 d)
  /\ tex_min (uploaded 1 d) = LinearMipMapLinear
  /\ img_format (tex_source (uploaded 1 d)) = Format_ARGB32.
Proof.
  cbv zeta.
  assert (E : texture (demoShowing Quitting)
              = Some (uploaded 1 {| img_width := 600; img_height := 800;
                                    img_format := Format_ARGB32;
                                    img_pixels := [] |}))
    by (vm_compute; reflexivity).
  split; [exact E |].
  destruct (texture_is_upload_of_image Quitting (demoShowing Quitting) _
              (reach_path Quitting demoFs "/pics" goodSetup demoWorld) E)
    as (_ & H2 & _ & _ & H5 & _).
  split; assumption.
Defined.

(** ** What a frame binds *)

(** X6. In every state of a session, a frame draws exactly when the widget
    holds a texture and the shader program is linked; it then binds the one
    live GL texture, never a deleted one, and draws 6 indices. *)
Theorem frame_binds_live_texture :
  forall (rev : Revision) (s : State) (winW winH : Z),
    reachable rev s ->
    (paintGL s winW winH <> None
     <-> texture s <> None
         /\ shaderProgram s = Some {| isLinked := true |})
    /\ (forall d, paintGL s winW winH = Some d ->
                  glTextures s = [draw_texture d] /\ draw_indices d = 6).
Proof.
  intros rev s winW winH Hr.
  pose proof (reachable_inv rev s Hr) as Hi. unfold textureInv in Hi.
  unfold paintGL.
  destruct (texture s) as [t|].
  - destruct Hi as [Hc Hl]. rewrite Hc. cbn [negb orb].
    destruct (shaderProgram s) as [[l]|]; cbn [isLinked].
    + destruct l; cbn [negb]; split.
      * split; [intros _; split; congruence | intros _; discriminate].
      * intros d E. injection E as <-. cbn. now split.
      * split; [congruence | intros [_ E]; discriminate].
      * intros d E. discriminate.
    + split; [split; [congruence | intros [_ E]; discriminate] |].
      intros d E. discriminate.
  - split; [split; [congruence | intros [E _]; congruence] |].
    intros d E. discriminate.
Qed.

Lemma frame_binds_live_texture_witness :
  paintGL (demoShowing Quitting) 800 600 <> None
  /\ shaderProgram (demoShowing Quitting) = Some {| isLinked := true |}.
Proof.
  assert (E : paintGL (demoShowing Quitting) 800 600 <> None)
    by (vm_compute; discriminate).
  split; [exact E |].
  destruct (frame_binds_live_texture Quitting (demoShowing Quitting) 800 600
              (reach_path Quitting demoFs "/pics" goodSetup demoWorld))
    as [[H _] _].
  apply (H E).
Defined.

(** ** A GL set-up that fails *)

(** X7. When any step of the GL set-up fails (no context, a shader that does
    not compile or link, a buffer that is not created), [initializeGL] loads
    nothing: the image, the texture, the GL textures, the zoom, the index,
    the file list and the quit request are as the constructor left them, and
    no file is read. A frame painted then draws nothing. *)
Theorem failed_setup_loads_nothing :
  forall (rev : Revision) (g : GLSetup) (w : World) (s : State),
    setupOk g = false ->
    let s' := initializeGL rev g w s in
    image s' = image s
    /\ texture s' = texture s
    /\ glTextures s' = glTextures s
    /\ zoomLevel s' = zoomLevel s
    /\ currentImageIndex s' = currentImageIndex s
    /\ imageFiles s' = imageFiles s
    /\ quitRequested s' = quitRequested s
    /\ windowTitle s' = windowTitle s
    /\ (texture s = None -> forall winW winH, paintGL s' winW winH = None).
Proof.
  intros rev g w s Hg. cbv zeta.
  assert (E : initializeGL rev g w s = s
              \/ exists p, initializeGL rev g w s = set_shaderProgram p s).
  { unfold setupOk in Hg. unfold initializeGL, initializeBuffers.
    destruct (hasContext g); cbn [negb]; [| now left].
    right.
    destruct rev;
      destruct (vertexOk g); destruct (fragmentOk g); destruct (linkOk g);
      cbn [negb andb] in *; eauto;
      destruct (vboOk g); cbn [negb andb] in *; eauto;
      destruct (eboOk g); cbn [negb andb] in *; eauto; discriminate. }
  destruct E as [-> | [p ->]]; repeat split; intros Ht winW winH;
    unfold paintGL; cbn; now rewrite Ht.
Qed.

Lemma failed_setup_loads_nothing_witness :
  let s := ImageGLWidget_ofPath Quitting demoFs "/pics" in
  let s' := initializeGL Quitting unlinkedSetup demoWorld s in
  image s' = None /\ currentImageIndex s' = -1
  /\ paintGL s' 800 600 = None.
Proof.
  cbv zeta.
  destruct (failed_setup_loads_nothing Quitting unlinkedSetup demoWorld
              (ImageGLWidget_ofPath Quitting demoFs "/pics") eq_refl)
    as (H1 & _ & _ & _ & H5 & _ & _ & _ & H9).
  cbv zeta in *. split; [exact H1 |]. split; [exact H5 |].
  apply H9. reflexivity.
Defined.

(** ** The shader program *)

Lemma loadImage_shaderProgram (rev : Revision) (w : World) (i : Z) (s : State) :
  shaderProgram (loadImage rev w i s) = shaderProgram s.
Proof.
  apply (loadImage_invariant rev
           (fun s' => shaderProgram s' = shaderProgram s));
    try (intros; assumption); try reflexivity.
  - intros index s0 H. destruct rev; exact H.
  - intros r s0 H. destruct rev; exact H.
  - intros w0 s0 H.
    destruct (updateTexture_frame rev w0 s0) as (_ & _ & _ & _ & Hp & _).
    cbv zeta in Hp. congruence.
Qed.

Lemma run_shaderProgram (rev : Revision) (es : list (World * Event))
  (s : State) :
  shaderProgram (run rev es s) = shaderProgram s.
Proof.
  apply (run_invariant rev (fun s' => shaderProgram s' = shaderProgram s));
    [| reflexivity].
  apply (step_invariant rev (fun s' => shaderProgram s' = shaderProgram s));
    try (intros; assumption).
  intros w i s0 H. now rewrite loadImage_shaderProgram.
Qed.

(** X8. No event changes the shader program that [initializeGL] left. So
    when the program did not link, or no GL context was there, no frame of
    the session draws anything, whatever is loaded later. *)
Theorem unlinked_shader_never_draws :
  forall (rev : Revision) (g : GLSetup) (w : World) (s : State)
         (es : list (World * Event)) (winW winH : Z),
    shaderProgram s = None ->
    hasContext g && linkOk g = false ->
    shaderProgram (run rev es (initializeGL rev g w s))
    = shaderProgram (initializeGL rev g w s)
    /\ paintGL (run rev es (initializeGL rev g w s)) winW winH = None.
Proof.
  intros rev g w s es winW winH Hs Hg.
  split; [apply run_shaderProgram |].
  assert (E : shaderProgram (initializeGL rev g w s) = None
              \/ shaderProgram (initializeGL rev g w s)
                 = Some {| isLinked := false |}).
  { unfold initializeGL.
    destruct (hasContext g); cbn [negb andb] in *; [| now left].
    rewrite Hg. right.
    destruct rev; cbn [negb]; rewrite ?andb_false_r; cbn [negb];
      [reflexivity |].
    destruct (vertexOk g); cbn [negb]; [| reflexivity].
    destruct (fragmentOk g); cbn [negb]; reflexivity. }
  unfold paintGL. rewrite run_shaderProgram.
  destruct E as [-> | ->];
    destruct (texture (run rev es (initializeGL rev g w s))) as [t|];
    try reflexivity.
  cbn. now rewrite orb_true_r.
Qed.

Lemma unlinked_shader_never_draws_witness :
  paintGL
    (run Reporting [(soundWorld, KeyPress Key_Right)]
       (initializeGL Reporting unlinkedSetup soundWorld
          (ImageGLWidget_ofPath Reporting demoFs "/pics"))) 800 600
  = None.
Proof.
  apply (unlinked_shader_never_draws Reporting unlinkedSetup soundWorld
           (ImageGLWidget_ofPath Reporting demoFs "/pics")
           [(soundWorld, KeyPress Key_Right)] 800 600);
    reflexivity.
Defined.

(** ** Teardown *)

(** X9. The destructor, run in any state of a session, leaves no GL texture
    alive and the widget without texture and shader program. *)
Theorem destructor_frees_texture :
  forall (rev : Revision) (s : State),
    reachable rev s ->
    glTextures (destructor s) = []
    /\ texture (destructor s) = None
    /\ shaderProgram (destructor s) = None.
Proof.
  intros rev s Hr. unfold destructor.
  destruct (releaseTexture_clears s (reachable_inv rev s Hr)) as [Ht Hl].
  cbn [set_shaderProgram glTextures texture shaderProgram].
  now rewrite Ht, Hl.
Qed.

Lemma destructor_frees_texture_witness :
  glTextures (demoShowing Quitting) = [1%nat]
  /\ glTextures (destructor (demoShowing Quitting)) = [].
Proof.
  split; [reflexivity |].
  apply (destructor_frees_texture Quitting (demoShowing Quitting)).
  apply reach_path.
Defined.

(** ** A session on standard input *)

Lemma onStdinImage_ext (d : ImageData) (s s' : State) :
  imageFiles s' = imageFiles s ->
  currentImageIndex s' = currentImageIndex s ->
  image s' = image s ->
  quitRequested s' = quitRequested s ->
  windowTitle s' = windowTitle s ->
  onStdinImage d s -> onStdinImage d s'.
Proof. unfold onStdinImage. intros -> -> -> -> ->. exact id. Qed.

Lemma step_onStdinImage (d : ImageData) (w : World) (e : Event) (s : State) :
  onStdinImage d s -> onStdinImage d (step Quitting w e s).
Proof.
  intros H. destruct e as [dy|k|ww wh]; cbn [step].
  - revert H. apply onStdinImage_ext; reflexivity.
  - destruct k; cbn [keyPressEvent].
    + revert H. apply onStdinImage_ext; reflexivity.
    + unfold loadPreviousImage.
      destruct H as (Hf & Hi & Hrest). rewrite Hi. cbn.
      repeat split; tauto.
    + unfold loadNextImage.
      destruct H as (Hf & Hi & Hrest). rewrite Hi, Hf. cbn.
      repeat split; tauto.
    + exact H.
  - exact H.
Qed.

(** X10. When grxiv.cpp is started without a path and standard input holds
    an image, the window is shown on that image, and the session stays on
    it: after any events the list is the single entry clipboard_image, the
    index is 0, the image is the one from standard input (converted to ARGB32
    once the GL set-up has run), no file is ever read, the title is grxiv and
    the application is not asked to quit. The arrow keys do nothing. *)
Theorem stdin_session_stays_put :
  forall (fs : FileSystem) (input : Stdin) (d : ImageData) (g : GLSetup)
         (w : World) (es : list (World * Event)),
    stdinData input <> [] ->
    canRead input = true ->
    readResult input = Some d ->
    exists s0,
      main Quitting fs input [] = Shown s0
      /\ onStdinImage d (run Quitting es (initializeGL Quitting g w s0))
      /\ (forall w' k,
             k <> Key_Q ->
             let s := run Quitting es (initializeGL Quitting g w s0) in
             keyPressEvent Quitting w' k s = s).
Proof.
  intros fs input d g w es Hd Hc Hr.
  exists (ImageGLWidget_ofImage (Some d)).
  assert (Hmain : main Quitting fs input [] = Shown (ImageGLWidget_ofImage (Some d))).
  { unfold main. destruct (stdinData input); [congruence |].
    now rewrite Hc, Hr. }
  assert (H0 : onStdinImage d (ImageGLWidget_ofImage (Some d))).
  { unfold onStdinImage. cbn. repeat split. now left. }
  assert (H1 : onStdinImage d
                 (initializeGL Quitting g w (ImageGLWidget_ofImage (Some d)))).
  { set (s0 := ImageGLWidget_ofImage (Some d)) in *.
    assert (E : initializeGL Quitting g w s0 = s0
                \/ (exists p, initializeGL Quitting g w s0 = set_shaderProgram p s0)
                \/ exists p,
                     initializeGL Quitting g w s0
                     = updateTexture Quitting w
                         (set_image (convertToFormat Format_ARGB32 (Some d))
                            (set_shaderProgram p s0))).
    { unfold initializeGL, initializeBuffers.
      destruct (hasContext g); cbn [negb]; [| now left].
      right.
      destruct (vertexOk g && fragmentOk g && linkOk g); cbn [negb]; [| eauto].
      destruct (vboOk g); cbn [negb]; [| eauto].
      destruct (eboOk g); cbn [negb]; [| eauto].
      right. eexists. reflexivity. }
    destruct E as [-> | [[p ->] | [p ->]]].
    - exact H0.
    - revert H0. apply onStdinImage_ext; reflexivity.
    - match goal with
      | |- onStdinImage d (updateTexture ?r ?w ?s1) =>
          destruct (updateTexture_frame r w s1) as (Hi & _ & Hf & Hx & _ & Hq & _);
          destruct (updateTexture_title r w s1) as [Ht _]
      end.
      cbv zeta in *. unfold onStdinImage. rewrite Hi, Hf, Hx, Hq, Ht.
      cbn. repeat split. now right. }
  assert (H2 : onStdinImage d
                 (run Quitting es
                    (initializeGL Quitting g w (ImageGLWidget_ofImage (Some d))))).
  { apply (run_invariant Quitting (onStdinImage d)); [| exact H1].
    intros w0 e s. apply step_onStdinImage. }
  split; [exact Hmain |]. split; [exact H2 |].
  intros w' k Hk. cbv zeta.
  destruct H2 as (Hf & Hi & _).
  destruct k; cbn [keyPressEvent]; try congruence.
  - unfold loadPreviousImage. now rewrite Hi.
  - unfold loadNextImage. now rewrite Hi, Hf.
Qed.

Lemma stdin_session_stays_put_witness :
  exists s0,
    main Quitting demoFs (stdinWith (picture 4 3)) [] = Shown s0
    /\ onStdinImage (picture 4 3)
         (run Quitting [(demoWorld, KeyPress Key_Right); (demoWorld, Wheel 120)]
            (initializeGL Quitting goodSetup demoWorld s0)).
Proof.
  destruct (stdin_session_stays_put demoFs (stdinWith (picture 4 3))
              (picture 4 3) goodSetup demoWorld
              [(demoWorld, KeyPress Key_Right); (demoWorld, Wheel 120)])
    as (s0 & H1 & H2 & _).
  - cbn. discriminate.
  - reflexivity.
  - reflexivity.
  - exists s0. split; assumption.
Defined.

(** ** The window title *)

Lemma loadImage_title (rev : Revision) (w : World) (i : Z) (s : State) :
  inBounds i s ->
  windowTitle (loadImage rev w i s)
  = match rev with
    | Quitting =>
        TitlePosition (fileName (at_ (imageFiles s) i)) (i + 1)
          (size (imageFiles s))
    | Reporting => windowTitle s
    end.
Proof.
  intros Hb. rewrite loadImage_cases, (loadImage_in_bounds rev w i s Hb).
  destruct (readImage w (pathAt s i)) as [d|].
  - match goal with
    | |- windowTitle (updateTexture ?r ?w ?s1) = _ =>
        destruct (updateTexture_title r w s1) as [Ht _]; rewrite Ht
    end.
    destruct rev; reflexivity.
  - destruct rev; reflexivity.
Qed.

(** X11. In a session of grxiv.cpp on a path, the title is the file name of
    the path until a load is tried, and from then on always the value of
    [QString("%1 (%2/%3)").arg(name).arg(index + 1).arg(size)] for the file
    name of the entry the index points at, the index and the length of the
    list: the title is never left over from another entry. In the reporting
    revision the title is " grxiv" throughout. *)
Theorem title_follows_index :
  forall (rev : Revision) (fs : FileSystem) (path : string) (g : GLSetup)
         (w : World) (es : list (World * Event)),
    let s := run rev es (initializeGL rev g w (ImageGLWidget_ofPath rev fs path)) in
    match rev with
    | Quitting => titleOk path s
    | Reporting => windowTitle s = TitleText " grxiv"
    end.
Proof.
  intros rev fs path g w es. cbv zeta.
  set (P := fun s => match rev with
                     | Quitting => titleOk path s
                     | Reporting => windowTitle s = TitleText " grxiv"
                     end).
  assert (Hext : forall s s',
             currentImageIndex s' = currentImageIndex s ->
             imageFiles s' = imageFiles s ->
             windowTitle s' = windowTitle s -> P s -> P s').
  { unfold P, titleOk. intros s s' -> -> ->. exact id. }
  assert (Hload : forall w0 i s, P s -> P (loadImage rev w0 i s)).
  { intros w0 i s Hs.
    destruct (loadImage_index rev w0 i s) as [[E | [Hb Hi]] Hf]; cbv zeta in *.
    - now rewrite E.
    - pose proof (loadImage_title rev w0 i s Hb) as Ht.
      unfold P, titleOk in *. destruct rev.
      + right. rewrite Hi, Hf, Ht. unfold inBounds in Hb. split; [lia | reflexivity].
      + congruence. }
  change (P (run rev es (initializeGL rev g w (ImageGLWidget_ofPath rev fs path)))).
  apply (run_invariant rev P).
  { apply (step_invariant rev P); [| | exact Hload].
    - intros z s. apply Hext; reflexivity.
    - intros s. apply Hext; reflexivity. }
  apply (initializeGL_invariant rev P); [| exact Hload | |].
  - intros p s. apply Hext; reflexivity.
  - intros w0 s d Hs _.
    match goal with
    | |- P (updateTexture ?r ?w ?s1) =>
        destruct (updateTexture_frame r w s1) as (_ & _ & Hf & Hx & _);
        destruct (updateTexture_title r w s1) as [Ht _]
    end.
    cbv zeta in *. revert Hs. apply Hext; assumption.
  - unfold P, titleOk, ImageGLWidget_ofPath.
    destruct (fs path) as [entries| |]; cbn.
    + destruct (entryInfoList path entries); destruct rev; cbn; auto.
    + destruct rev; cbn; auto.
    + destruct rev; cbn; auto.
Qed.

(** ** The two revisions side by side *)

(** The live GL textures after [updateTexture]. *)
Lemma updateTexture_glTextures (rev : Revision) (w : World) (s : State) :
  glTextures (updateTexture rev w s)
  = let live :=
      match texture s with
      | Some t => glDelete t (glTextures s)
      | None => glTextures s
      end in
    match image s with
    | Some d => if textureCreated w d then glNext s :: live else live
    | None => live
    end.
Proof.
  unfold updateTexture, createTexture, releaseTexture, newTexture.
  destruct (texture s) as [t|]; cbn;
    (destruct (image s) as [d|]; cbn; [| reflexivity]);
    destruct (textureCreated w d); destruct rev; reflexivity.
Qed.

Lemma updateTexture_sameCore (w : World) (a b : State) :
  sameCore a b ->
  sameCore (updateTexture Quitting w a) (updateTexture Reporting w b).
Proof.
  unfold sameCore. intros (Hi & Ht & Hz & Hf & Hx & Hl & Hn & Hc).
  destruct (updateTexture_frame Quitting w a) as (A1 & A2 & A3 & A4 & _ & _ & A7).
  destruct (updateTexture_frame Reporting w b) as (B1 & B2 & B3 & B4 & _ & _ & B7).
  destruct (updateTexture_texture Quitting w a) as [At An].
  destruct (updateTexture_texture Reporting w b) as [Bt Bn].
  cbv zeta in *.
  rewrite A1, A2, A3, A4, A7, B1, B2, B3, B4, B7, At, An, Bt, Bn.
  rewrite !updateTexture_glTextures. cbv zeta.
  rewrite Hi, Ht, Hl, Hn. repeat split; assumption.
Qed.

Lemma loadImage_sameCore (w : World) (i : Z) (a b : State) :
  sameCore a b ->
  sameCore (loadImage Quitting w i a) (loadImage Reporting w i b).
Proof.
  intros H. rewrite !loadImage_cases.
  pose proof H as (Hi & Ht & Hz & Hf & Hx & Hl & Hn & Hc).
  unfold pathAt. rewrite Hf.
  destruct ((i <? 0) || (i >=? size (imageFiles b))); [exact H |].
  destruct (readImage w (absoluteFilePath (at_ (imageFiles b) i))) as [d|].
  - apply updateTexture_sameCore. unfold sameCore. cbn. repeat split; assumption.
  - unfold sameCore. cbn. repeat split; assumption.
Qed.

Lemma step_sameCore (w : World) (e : Event) (a b : State) :
  sameCore a b -> sameCore (step Quitting w e a) (step Reporting w e b).
Proof.
  intros H. pose proof H as (Hi & Ht & Hz & Hf & Hx & Hl & Hn & Hc).
  destruct e as [dy|k|ww wh]; cbn [step].
  - unfold sameCore. cbn. rewrite Hz. repeat split; assumption.
  - destruct k; cbn [keyPressEvent].
    + unfold sameCore. cbn. repeat split; assumption.
    + unfold loadPreviousImage. rewrite Hx.
      destruct (currentImageIndex b - 1 >=? 0);
        [now apply loadImage_sameCore | exact H].
    + unfold loadNextImage. rewrite Hx, Hf.
      destruct (currentImageIndex b + 1 <? size (imageFiles b));
        [now apply loadImage_sameCore | exact H].
    + exact H.
  - exact H.
Qed.

Lemma run_sameCore (es : list (World * Event)) (a b : State) :
  sameCore a b -> sameCore (run Quitting es a) (run Reporting es b).
Proof.
  revert a b. induction es as [|[w e] es IH]; intros a b H; cbn [run].
  - exact H.
  - apply IH, step_sameCore, H.
Qed.

Lemma initializeGL_sameCore (g : GLSetup) (w : World) (a b : State) :
  sameCore a b -> image a = None ->
  sameCore (initializeGL Quitting g w a) (initializeGL Reporting g w b).
Proof.
  intros H Hnull. pose proof H as (Hi & Ht & Hz & Hf & Hx & Hl & Hn & Hc).
  assert (S : forall p q, sameCore (set_shaderProgram p a) (set_shaderProgram q b)).
  { intros p q. unfold sameCore. cbn. repeat split; assumption. }
  assert (B : forall p q,
             sameCore (initializeBuffers Quitting g w (set_shaderProgram p a))
                      (initializeBuffers Reporting g w (set_shaderProgram q b))).
  { intros p q. unfold initializeBuffers.
    destruct (negb (vboOk g)); [apply S |].
    destruct (negb (eboOk g)); [apply S |].
    cbn [imageFiles image set_shaderProgram]. rewrite Hf, Hnull. cbn [isNull].
    destruct (imageFiles b); [apply S |].
    apply loadImage_sameCore, S. }
  unfold initializeGL.
  destruct (hasContext g); cbn [negb]; [| exact H].
  destruct (vertexOk g); cbn [negb andb]; [| apply S].
  destruct (fragmentOk g); cbn [negb andb]; [| apply S].
  destruct (linkOk g); cbn [negb]; [apply B | apply S].
Qed.

(** X12. On the same path, set-up, files and events, the two revisions go
    through the same image, texture, GL textures, zoom, index, file list and
    close request at every step: they differ only in the quit request, the
    title, the diagnostics and the shader program. When both shaders
    compile, they also paint the same frames. *)
Theorem revisions_agree :
  forall (fs : FileSystem) (path : string) (g : GLSetup) (w : World)
         (es : list (World * Event)),
    let q := run Quitting es
               (initializeGL Quitting g w (ImageGLWidget_ofPath Quitting fs path)) in
    let r := run Reporting es
               (initializeGL Reporting g w (ImageGLWidget_ofPath Reporting fs path)) in
    sameCore q r
    /\ (vertexOk g && fragmentOk g = true ->
        forall winW winH, paintGL q winW winH = paintGL r winW winH).
Proof.
  intros fs path g w es q r.
  assert (H0 : sameCore (ImageGLWidget_ofPath Quitting fs path)
                        (ImageGLWidget_ofPath Reporting fs path)).
  { unfold ImageGLWidget_ofPath, sameCore.
    destruct (fs path) as [entries| |]; cbn.
    - destruct (entryInfoList path entries); cbn; repeat split.
    - repeat split.
    - repeat split. }
  assert (Hnull : image (ImageGLWidget_ofPath Quitting fs path) = None).
  { unfold ImageGLWidget_ofPath.
    destruct (fs path) as [entries| |]; cbn.
    - destruct (entryInfoList path entries); reflexivity.
    - reflexivity.
    - reflexivity. }
  assert (Hnone : forall rev, shaderProgram (ImageGLWidget_ofPath rev fs path) = None).
  { intros rev. unfold ImageGLWidget_ofPath.
    destruct (fs path) as [entries| |]; cbn.
    - destruct (entryInfoList path entries); destruct rev; reflexivity.
    - reflexivity.
    - destruct rev; reflexivity. }
  assert (Hcore : sameCore q r).
  { apply run_sameCore, initializeGL_sameCore; assumption. }
  split; [exact Hcore |].
  intros Hvf winW winH.
  apply andb_prop in Hvf as [Hv Hfr].
  destruct Hcore as (Hi & Ht & Hz & _).
  assert (Hp : shaderProgram q = shaderProgram r).
  { unfold q, r. rewrite !run_shaderProgram.
    assert (E : forall rev s,
               shaderProgram s = None ->
               shaderProgram (initializeGL rev g w s)
               = if hasContext g then Some {| isLinked := linkOk g |} else None).
    { intros rev s Hs.
      unfold initializeGL. destruct (hasContext g); cbn [negb]; [| exact Hs].
      rewrite Hv, Hfr. cbn [negb andb].
      assert (B : forall s0, shaderProgram (initializeBuffers rev g w s0)
                             = shaderProgram s0).
      { intros s0. unfold initializeBuffers.
        destruct (negb (vboOk g)); [reflexivity |].
        destruct (negb (eboOk g)); [reflexivity |].
        destruct (imageFiles s0); [reflexivity |].
        destruct rev; [| apply loadImage_shaderProgram].
        destruct (isNull (image s0)); [apply loadImage_shaderProgram |].
        match goal with
        | |- shaderProgram (updateTexture ?r0 ?w0 ?s1) = _ =>
            destruct (updateTexture_frame r0 w0 s1) as (_ & _ & _ & _ & Hp & _);
            cbv zeta in Hp; rewrite Hp; reflexivity
        end. }
      destruct rev; destruct (linkOk g); cbn [negb]; rewrite ?B; reflexivity. }
    rewrite !E by apply Hnone. reflexivity. }
  unfold paintGL. now rewrite Hi, Ht, Hz, Hp.
Qed.

(** ** The order of the listing *)

Lemma filter_perm {A : Type} (f : A -> bool) (l l' : list A) :
  Permutation l l' -> Permutation (filter f l) (filter f l').
Proof.
  induction 1 as [| x l l' _ IH | x y l | l l' l'' _ IH1 _ IH2]; cbn.
  - constructor.
  - destruct (f x); [now constructor | exact IH].
  - destruct (f x), (f y); try reflexivity. apply perm_swap.
  - now transitivity (filter f l').
Qed.

Lemma names_filter_NoDup (f : DirEntry -> bool) (l : list DirEntry) :
  NoDup (map de_name l) -> NoDup (map de_name (filter f l)).
Proof.
  induction l as [|x l IH]; cbn; intros H; [constructor |].
  inversion H as [|? ? Hx Hl]; subst.
  destruct (f x); cbn; [| now apply IH].
  constructor; [| now apply IH].
  intros Hin. apply Hx. apply in_map_iff in Hin as (y & Hy & Hin).
  apply filter_In in Hin as [Hin _]. apply in_map_iff. now exists y.
Qed.

(** Two listings in ascending order of the same entries, no two of one
    name, are the same list. *)
Lemma sorted_listing_unique (l1 l2 : list DirEntry) :
  StronglySorted entryLe l1 -> StronglySorted entryLe l2 ->
  Permutation l1 l2 -> NoDup (map de_name l1) -> l1 = l2.
Proof.
  revert l2. induction l1 as [|x l1 IH]; intros l2 S1 S2 Hp Hn.
  - apply Permutation_nil in Hp. now subst.
  - destruct l2 as [|y l2].
    { apply Permutation_sym, Permutation_nil in Hp. discriminate. }
    inversion S1 as [|? ? S1' F1]; subst.
    inversion S2 as [|? ? S2' F2]; subst.
    inversion Hn as [|? ? Hx Hn']; subst.
    assert (Exy : x = y).
    { assert (Hxin : In x (y :: l2))
        by (apply (Permutation_in _ Hp); now left).
      assert (Hyin : In y (x :: l1))
        by (apply (Permutation_in _ (Permutation_sym Hp)); now left).
      destruct Hxin as [-> | Hxin]; [reflexivity |].
      destruct Hyin as [-> | Hyin]; [reflexivity |].
      exfalso. apply Hx.
      rewrite Forall_forall in F1, F2.
      assert (E : de_name x = de_name y).
      { apply String.leb_antisym; [apply (F1 y Hyin) | apply (F2 x Hxin)]. }
      rewrite E. now apply in_map. }
    subst y. f_equal. apply IH; try assumption.
    now apply Permutation_cons_inv with x.
Qed.

(** X13. The listing does not depend on the order in which the file system
    hands out the entries of the directory: two enumerations of the same
    entries, no two of one name, give the same file list. *)
Theorem listing_ignores_enumeration_order :
  forall (dir : string) (entries entries' : list DirEntry),
    Permutation entries entries' ->
    NoDup (map de_name entries) ->
    entryInfoList dir entries = entryInfoList dir entries'.
Proof.
  intros dir entries entries' Hp Hn. unfold entryInfoList. f_equal.
  apply sorted_listing_unique.
  - apply sortByName_sorted.
  - apply sortByName_sorted.
  - rewrite !sortByName_perm. now apply filter_perm.
  - apply (Permutation_NoDup
             (Permutation_map de_name
                (Permutation_sym (sortByName_perm (filter listed entries))))).
    now apply names_filter_NoDup.
Qed.

Lemma listing_ignores_enumeration_order_witness :
  entryInfoList "/pics"
    [plainFile "z.gif"; plainFile "c.txt"; plainFile "b.jpg"; plainFile "a.png"]
  = entryInfoList "/pics"
      [plainFile "c.txt"; plainFile "z.gif"; plainFile "b.jpg"; plainFile "a.png"].
Proof.
  apply listing_ignores_enumeration_order.
  - apply perm_swap.
  - cbn. repeat constructor; cbn; intuition discriminate.
Defined.

(** ** A move that loads *)

Lemma updateTexture_reports (rev : Revision) (w : World) (s : State) :
  reports (updateTexture rev w s)
  = match image s with
    | Some d =>
        if textureCreated w d then reports s
        else match rev with
             | Quitting => reports s
             | Reporting => (reports s ++ [TextureCreationError])%list
             end
    | None => reports s
    end.
Proof.
  unfold updateTexture, createTexture, releaseTexture, newTexture.
  destruct (texture s) as [t|]; cbn;
    (destruct (image s) as [d|]; cbn; [| reflexivity]);
    destruct (textureCreated w d); destruct rev; reflexivity.
Qed.

(** A load that reads an image, in a state where the texture pointer and the
    GL context agree. *)
Lemma loadImage_loaded_inv (rev : Revision) (w : World) (i : Z) (s : State)
  (d : ImageData) :
  textureInv s -> textureOk s -> inBounds i s ->
  readImage w (pathAt s i) = Some d ->
  exists d',
    convertToFormat Format_ARGB32 (Some d) = Some d'
    /\ let s' := loadImage rev w i s in
       image s' = Some d'
       /\ currentImageIndex s' = i
       /\ zoomLevel s' = F32.one
       /\ quitRequested s' = quitRequested s
       /\ texture s'
          = (if textureCreated w d' then Some (uploaded (glNext s) d') else None)
       /\ glTextures s'
          = (if textureCreated w d' then [glNext s] else [])
       /\ ~ In (glNext s) (glTextures s)
       /\ reports s'
          = (if textureCreated w d' then reports s
             else match rev with
                  | Quitting => reports s
                  | Reporting => (reports s ++ [TextureCreationError])%list
                  end).
Proof.
  intros Hinv Hok Hb Hread. eexists. split; [reflexivity |]. cbv zeta.
  rewrite loadImage_cases, (loadImage_in_bounds rev w i s Hb), Hread.
  match goal with
  | |- context [updateTexture rev w ?s1] =>
      set (s1' := s1);
      destruct (updateTexture_frame rev w s1') as (F1 & F2 & _ & F4 & _ & F6 & _);
      destruct (updateTexture_texture rev w s1') as [Ft _];
      pose proof (updateTexture_glTextures rev w s1') as Fg;
      pose proof (updateTexture_reports rev w s1') as Fr
  end.
  cbv zeta in *.
  assert (E1 : image s1' = convertToFormat Format_ARGB32 (Some d))
    by reflexivity.
  assert (E2 : texture s1' = texture s) by (destruct rev; reflexivity).
  assert (E3 : glTextures s1' = glTextures s) by (destruct rev; reflexivity).
  assert (E4 : glNext s1' = glNext s) by (destruct rev; reflexivity).
  assert (E5 : reports s1' = reports s) by (destruct rev; reflexivity).
  assert (E6 : quitRequested s1' = quitRequested s) by (destruct rev; reflexivity).
  assert (E7 : currentImageIndex s1' = i) by (destruct rev; reflexivity).
  assert (E8 : zoomLevel s1' = F32.one) by reflexivity.
  rewrite F1, F2, F4, F6, Ft, Fg, Fr, E1, E2, E3, E4, E5, E6, E7, E8.
  cbn [convertToFormat].
  assert (Hlive : match texture s with
                  | Some t => glDelete t (glTextures s)
                  | None => glTextures s
                  end = []).
  { unfold textureInv in Hinv. destruct (texture s) as [t|]; [| exact Hinv].
    destruct Hinv as [Hc Hl]. unfold glDelete. rewrite Hc, Hl. cbn.
    destruct (Nat.eq_dec (tex_id t) (tex_id t)); [reflexivity | congruence]. }
  rewrite Hlive.
  repeat split.
  unfold textureInv in Hinv. unfold textureOk in Hok.
  destruct (texture s) as [t|].
  - destruct Hinv as [_ Hl]. destruct Hok as (Hlt & _). rewrite Hl.
    cbn. intros [E | []]. lia.
  - rewrite Hinv. exact (fun F => F).
Qed.

Lemma loadImage_loaded (rev : Revision) (w : World) (i : Z) (s : State)
  (d : ImageData) :
  reachable rev s -> inBounds i s ->
  readImage w (pathAt s i) = Some d ->
  exists d',
    convertToFormat Format_ARGB32 (Some d) = Some d'
    /\ let s' := loadImage rev w i s in
       image s' = Some d'
       /\ currentImageIndex s' = i
       /\ zoomLevel s' = F32.one
       /\ quitRequested s' = quitRequested s
       /\ texture s'
          = (if textureCreated w d' then Some (uploaded (glNext s) d') else None)
       /\ glTextures s'
          = (if textureCreated w d' then [glNext s] else [])
       /\ ~ In (glNext s) (glTextures s)
       /\ reports s'
          = (if textureCreated w d' then reports s
             else match rev with
                  | Quitting => reports s
                  | Reporting => (reports s ++ [TextureCreationError])%list
                  end).
Proof.
  intros Hr. apply loadImage_loaded_inv.
  - now apply reachable_inv with rev.
  - now apply reachable_textureOk with rev.
Qed.

(** X14. A move forward or back whose file decodes and whose texture is
    created replaces the texture: afterwards the index is the target, the
    image is the decoded one in ARGB32, the zoom is 1.0f, the widget's
    texture is a created upload of that image with the trilinear and linear
    filters and mip levels, and it is the only live GL texture. Nothing is
    said about which GL name it gets. *)
Theorem navigation_replaces_texture :
  forall (rev : Revision) (w : World) (n : Nav) (s : State)
         (d d' : ImageData),
    reachable rev s ->
    inBounds (navTarget n s) s ->
    readImage w (pathAt s (navTarget n s)) = Some d ->
    convertToFormat Format_ARGB32 (Some d) = Some d' ->
    textureCreated w d' = true ->
    let s' := keyPressEvent rev w (navKey n) s in
    currentImageIndex s' = navTarget n s
    /\ image s' = Some d'
    /\ zoomLevel s' = F32.one
    /\ (exists t,
          texture s' = Some t
          /\ tex_created t = true
          /\ tex_source t = d'
          /\ tex_min t = LinearMipMapLinear
          /\ tex_mag t = Linear
          /\ tex_mipmaps t = true
          /\ glTextures s' = [tex_id t])
    /\ quitRequested s' = quitRequested s
    /\ reports s' = reports s.
Proof.
  intros rev w n s d d' Hr Hb Hread Hconv Hcreated. cbv zeta.
  rewrite (navigate_loads rev w n s Hb).
  destruct (loadImage_loaded rev w (navTarget n s) s d Hr Hb Hread)
    as (d0 & Hd0 & H).
  assert (d0 = d') by congruence. subst d0.
  cbv zeta in H. rewrite Hcreated in H.
  destruct H as (H1 & H2 & H3 & H4 & H5 & H6 & _ & H8).
  repeat split; try assumption.
  exists (uploaded (glNext s) d'). repeat split; assumption.
Qed.

Lemma navigation_replaces_texture_witness :
  let s := demoShowing Quitting in
  let s' := keyPressEvent Quitting soundWorld Key_Right s in
  let d' := {| img_width := 1920; img_height := 1080;
               img_format := Format_ARGB32; img_pixels := [] |} in
  currentImageIndex s' = 1
  /\ image s' = Some d'
  /\ exists t,
       texture s' = Some t /\ tex_source t = d' /\ glTextures s' = [tex_id t].
Proof.
  cbv zeta.
  assert (T : navTarget Advance (demoShowing Quitting) = 1)
    by (vm_compute; reflexivity).
  destruct (navigation_replaces_texture Quitting soundWorld Advance
              (demoShowing Quitting) (picture 1920 1080)
              {| img_width := 1920; img_height := 1080;
                 img_format := Format_ARGB32; img_pixels := [] |})
    as (H1 & H2 & _ & (t & Ht & _ & Hs & _ & _ & _ & Hl) & _).
  - apply reach_path.
  - unfold inBounds. vm_compute. split; discriminate || reflexivity.
  - reflexivity.
  - reflexivity.
  - reflexivity.
  - cbv zeta in *. cbn [navKey] in *. rewrite T in H1.
    split; [exact H1 |]. split; [exact H2 |].
    exists t. repeat split; assumption.
Defined.

(** X15. A move forward or back whose file decodes but whose texture cannot
    be created still moves: the index is the target and the image the new
    one, but the widget holds no texture, none is live, and frames draw
    nothing. Neither revision asks the application to quit; the reporting
    revision records the texture failure. *)
Theorem navigation_without_texture :
  forall (rev : Revision) (w : World) (n : Nav) (s : State)
         (d d' : ImageData),
    reachable rev s ->
    inBounds (navTarget n s) s ->
    readImage w (pathAt s (navTarget n s)) = Some d ->
    convertToFormat Format_ARGB32 (Some d) = Some d' ->
    textureCreated w d' = false ->
    let s' := keyPressEvent rev w (navKey n) s in
    currentImageIndex s' = navTarget n s
    /\ image s' = Some d'
    /\ texture s' = None
    /\ glTextures s' = []
    /\ (forall winW winH, paintGL s' winW winH = None)
    /\ quitRequested s' = quitRequested s
    /\ reports s'
       = match rev with
         | Quitting => reports s
         | Reporting => (reports s ++ [TextureCreationError])%list
         end.
Proof.
  intros rev w n s d d' Hr Hb Hread Hconv Hfail. cbv zeta.
  rewrite (navigate_loads rev w n s Hb).
  destruct (loadImage_loaded rev w (navTarget n s) s d Hr Hb Hread)
    as (d0 & Hd0 & H).
  assert (d0 = d') by congruence. subst d0.
  cbv zeta in H. rewrite Hfail in H.
  destruct H as (H1 & H2 & H3 & H4 & H5 & H6 & H7 & H8).
  repeat split; try assumption.
  intros winW winH. now apply paintGL_no_texture.
Qed.

Lemma navigation_without_texture_witness :
  let s := demoShowing Quitting in
  let s' := keyPressEvent Quitting noTextureWorld Key_Right s in
  texture s <> None
  /\ texture s' = None
  /\ quitRequested s' = false.
Proof.
  cbv zeta.
  assert (Q : quitRequested (demoShowing Quitting) = false)
    by (vm_compute; reflexivity).
  split; [vm_compute; discriminate |].
  destruct (navigation_without_texture Quitting noTextureWorld Advance
              (demoShowing Quitting) (picture 1920 1080)
              {| img_width := 1920; img_height := 1080;
                 img_format := Format_ARGB32; img_pixels := [] |})
    as (_ & _ & H3 & _ & _ & H6 & _).
  - apply reach_path.
  - unfold inBounds. vm_compute. split; discriminate || reflexivity.
  - reflexivity.
  - reflexivity.
  - reflexivity.
  - cbv zeta in *. cbn [navKey] in *. rewrite Q in H6. split; assumption.
Defined.

(** ** The first image *)

(** X16. Opening a directory that lists at least one image, with a GL
    set-up that succeeds and a first file that decodes: the window is shown,
    and after [initializeGL] the index is 0, the zoom 1.0f, the image the
    first file of the listing in ARGB32, and the texture an upload of it if
    the texture can be created, none otherwise. *)
Theorem first_image_shown :
  forall (rev : Revision) (fs : FileSystem) (input : Stdin) (path : string)
         (rest : list string) (entries : list DirEntry) (g : GLSetup)
         (w : World) (first : QFileInfo) (others : list QFileInfo)
         (d d' : ImageData),
    fs path = Directory entries ->
    entryInfoList path entries = first :: others ->
    setupOk g = true ->
    readImage w (absoluteFilePath first) = Some d ->
    convertToFormat Format_ARGB32 (Some d) = Some d' ->
    exists s0,
      main rev fs input (path :: rest) = Shown s0
      /\ let s := initializeGL rev g w s0 in
         imageFiles s = first :: others
         /\ currentImageIndex s = 0
         /\ zoomLevel s = F32.one
         /\ image s = Some d'
         /\ texture s
            = (if textureCreated w d' then Some (uploaded 1 d') else None)
         /\ quitRequested s = false.
Proof.
  intros rev fs input path rest entries g w first others d d'
         Hfs Hlist Hg Hread Hconv.
  eexists. split; [reflexivity |]. cbv zeta.
  set (s0 := ImageGLWidget_ofPath rev fs path).
  assert (Hfiles : imageFiles s0 = first :: others).
  { unfold s0. rewrite (ImageGLWidget_ofPath_directory rev fs path entries Hfs).
    exact Hlist. }
  assert (Hs0 : image s0 = None /\ texture s0 = None /\ glTextures s0 = []
                /\ glNext s0 = 1%nat /\ quitRequested s0 = false).
  { unfold s0, ImageGLWidget_ofPath. rewrite Hfs.
    cbn [set_imageFiles imageFiles]. rewrite Hlist. cbn. repeat split. }
  destruct Hs0 as (Hi0 & Ht0 & Hl0 & Hn0 & Hq0).
  assert (Hb : inBounds 0 s0).
  { unfold inBounds, size. rewrite Hfiles. cbn [List.length]. lia. }
  set (s1 := set_shaderProgram (Some {| isLinked := linkOk g |}) s0).
  assert (E : initializeGL rev g w s0 = loadImage rev w 0 s1).
  { unfold s1, setupOk in *. unfold initializeGL, initializeBuffers.
    destruct (hasContext g), (vertexOk g), (fragmentOk g), (linkOk g),
      (vboOk g), (eboOk g); try discriminate.
    destruct rev; cbn [negb andb set_shaderProgram imageFiles image];
      rewrite Hfiles, ?Hi0; reflexivity. }
  assert (Hinv : textureInv s1) by (unfold textureInv; cbn; now rewrite Ht0).
  assert (Hok : textureOk s1) by (unfold textureOk; cbn; now rewrite Ht0).
  assert (Hread1 : readImage w (pathAt s1 0) = Some d).
  { unfold pathAt, at_. cbn [s1 set_shaderProgram imageFiles].
    rewrite Hfiles. exact Hread. }
  destruct (loadImage_loaded_inv rev w 0 s1 d Hinv Hok Hb Hread1)
    as (d0 & Hd0 & H).
  assert (d0 = d') by congruence. subst d0.
  cbv zeta in H. destruct H as (H1 & H2 & H3 & H4 & H5 & _).
  rewrite E, loadImage_files.
  cbn [s1 set_shaderProgram imageFiles glNext quitRequested] in *.
  rewrite Hn0 in H5. rewrite Hq0 in H4.
  repeat split; assumption.
Qed.

Lemma first_image_shown_witness :
  exists s0,
    main Quitting demoFs noStdin ["/pics"%string] = Shown s0
    /\ currentImageIndex (initializeGL Quitting goodSetup demoWorld s0) = 0
    /\ map fileName (imageFiles (initializeGL Quitting goodSetup demoWorld s0))
       = ["a.png"; "b.jpg"; "z.gif"]%string.
Proof.
  destruct (first_image_shown Quitting demoFs noStdin "/pics" []
              [plainFile "z.gif"; plainFile "c.txt"; plainFile "b.jpg";
               plainFile "a.png"]
              goodSetup demoWorld
              {| fileName := "a.png"; absoluteFilePath := "/pics/a.png" |}
              [{| fileName := "b.jpg"; absoluteFilePath := "/pics/b.jpg" |};
               {| fileName := "z.gif"; absoluteFilePath := "/pics/z.gif" |}]
              (picture 600 800)
              {| img_width := 600; img_height := 800;
                 img_format := Format_ARGB32; img_pixels := [] |})
    as (s0 & Hmain & Hf & Hi & _); try reflexivity.
  exists s0. split; [exact Hmain |]. split; [exact Hi |].
  cbv zeta in Hf. rewrite Hf. reflexivity.
Defined.

(** ** A texture without an image *)

(** X17. In the reporting revision a state that holds a texture while the
    image is null only arises after a load failure, and that failure has
    been reported: the diagnostics then hold a "failed to load" entry. *)
Theorem stale_texture_is_reported :
  forall (s : State),
    reachable Reporting s ->
    texture s <> None ->
    image s = None ->
    exists path, In (FailedToLoad path) (reports s).
Proof.
  intros s Hr Ht Hi.
  set (Q := fun s0 : State =>
              (exists path, In (FailedToLoad path) (reports s0))
              \/ (texture s0 <> None -> isNull (image s0) = false)).
  assert (HQ : Q s).
  { assert (Hext : forall a b,
               reports b = reports a -> texture b = texture a ->
               image b = image a -> Q a -> Q b).
    { unfold Q. intros a b -> -> ->. exact id. }
    apply (reachable_invariant Reporting Q); try exact Hr.
    - intros fs path. right. unfold ImageGLWidget_ofPath.
      destruct (fs path) as [entries| |]; cbn.
      + destruct (entryInfoList path entries); cbn; congruence.
      + congruence.
      + congruence.
    - discriminate.
    - intros z a. apply Hext; reflexivity.
    - intros a. apply Hext; reflexivity.
    - intros p a. apply Hext; reflexivity.
    - intros w i a Ha. rewrite loadImage_cases.
      destruct ((i <? 0) || (i >=? size (imageFiles a))); [exact Ha |].
      destruct (readImage w (pathAt a i)) as [d|].
      + right. intros _.
        match goal with
        | |- isNull (image (updateTexture ?r ?w ?s1)) = _ =>
            destruct (updateTexture_frame r w s1) as (Hu & _);
            cbv zeta in Hu; rewrite Hu; reflexivity
        end.
      + left. exists (pathAt a i). cbn. apply in_or_app. right. now left.
    - intros w a d _ _. right. intros _.
      match goal with
      | |- isNull (image (updateTexture ?r ?w ?s1)) = _ =>
          destruct (updateTexture_frame r w s1) as (Hu & _);
          cbv zeta in Hu; rewrite Hu; reflexivity
      end. }
  destruct HQ as [H | H]; [exact H |].
  specialize (H Ht). rewrite Hi in H. discriminate.
Qed.

Lemma stale_texture_is_reported_witness :
  exists path,
    In (FailedToLoad path)
       (reports
          (step Reporting demoWorld (KeyPress Key_Right) (demoShowing Reporting))).
Proof.
  apply (stale_texture_is_reported
           (step Reporting demoWorld (KeyPress Key_Right) (demoShowing Reporting))).
  - apply reach_step, reach_path.
  - vm_compute. discriminate.
  - vm_compute. reflexivity.
Defined.

(** ** A source without images *)

Lemma loadImage_empty (rev : Revision) (w : World) (i : Z) (s : State) :
  imageFiles s = [] -> loadImage rev w i s = s.
Proof.
  intros H. unfold loadImage. rewrite H. cbn [size List.length Z.of_nat].
  destruct (Z.ltb_spec i 0); cbn [orb]; [reflexivity |].
  destruct (Z.geb_spec i 0); [reflexivity | lia].
Qed.

(** X18. When the path is neither a directory nor a file, or is a directory
    in which nothing is listed, [main] still shows the window, and the
    session stays blank: whatever the events, the file list is empty, the
    index -1, the image null, the widget without texture, and no frame draws
    anything. *)
Theorem blank_session :
  forall (rev : Revision) (fs : FileSystem) (input : Stdin) (path : string)
         (rest : list string) (g : GLSetup) (w : World)
         (es : list (World * Event)) (winW winH : Z),
    (fs path = Nothing
     \/ exists entries,
          fs path = Directory entries
          /\ forall e, In e entries -> listed e = false) ->
    exists s0,
      main rev fs input (path :: rest) = Shown s0
      /\ let s := run rev es (initializeGL rev g w s0) in
         imageFiles s = []
         /\ currentImageIndex s = -1
         /\ image s = None
         /\ texture s = None
         /\ paintGL s winW winH = None.
Proof.
  intros rev fs input path rest g w es winW winH Hsrc.
  eexists. split; [reflexivity |]. cbv zeta.
  set (B := fun s : State =>
              imageFiles s = [] /\ currentImageIndex s = -1
              /\ image s = None /\ texture s = None).
  assert (Hext : forall a b,
             imageFiles b = imageFiles a ->
             currentImageIndex b = currentImageIndex a ->
             image b = image a -> texture b = texture a -> B a -> B b).
  { unfold B. intros a b -> -> -> ->. exact id. }
  assert (Hload : forall w0 i a, B a -> B (loadImage rev w0 i a)).
  { intros w0 i a Ha. rewrite loadImage_empty; [exact Ha | apply Ha]. }
  assert (H0 : B (ImageGLWidget_ofPath rev fs path)).
  { unfold B, ImageGLWidget_ofPath.
    destruct Hsrc as [-> | (entries & -> & Hnone)].
    - destruct rev; cbn; repeat split.
    - cbn [set_imageFiles imageFiles].
      rewrite (nothing_listed path entries Hnone).
      destruct rev; cbn; repeat split. }
  assert (H1 : B (run rev es (initializeGL rev g w (ImageGLWidget_ofPath rev fs path)))).
  { apply (run_invariant rev B).
    - apply (step_invariant rev B); [| | exact Hload].
      + intros z a. apply Hext; reflexivity.
      + intros a. apply Hext; reflexivity.
    - apply (initializeGL_invariant rev B); [| exact Hload | | exact H0].
      + intros p a. apply Hext; reflexivity.
      + intros w0 a d (_ & _ & Hi & _) Hd. congruence. }
  destruct H1 as (Hf & Hx & Hi & Ht).
  repeat split; try assumption.
  now apply paintGL_no_texture.
Qed.

Lemma blank_session_witness :
  exists s0,
    main Quitting demoFs noStdin ["/nowhere"%string] = Shown s0
    /\ paintGL
         (run Quitting [(soundWorld, KeyPress Key_Right)]
            (initializeGL Quitting goodSetup soundWorld s0)) 800 600
       = None.
Proof.
  destruct (blank_session Quitting demoFs noStdin "/nowhere" [] goodSetup
              soundWorld [(soundWorld, KeyPress Key_Right)] 800 600)
    as (s0 & Hmain & _ & _ & _ & _ & Hp).
  - left. reflexivity.
  - exists s0. split; assumption.
Defined.

Lemma quitting_texture_has_image_witness :
  let s := step Quitting soundWorld (KeyPress Key_Right) (demoShowing Quitting) in
  quitRequested s = false
  /\ texture s <> None
  /\ isNull (image s) = false.
Proof.
  cbv zeta.
  assert (Q : quitRequested
                (step Quitting soundWorld (KeyPress Key_Right)
                   (demoShowing Quitting)) = false)
    by (vm_compute; reflexivity).
  assert (T : texture
                (step Quitting soundWorld (KeyPress Key_Right)
                   (demoShowing Quitting)) <> None)
    by (vm_compute; discriminate).
  split; [exact Q |]. split; [exact T |].
  destruct (quitting_texture_has_image
              (step Quitting soundWorld (KeyPress Key_Right)
                 (demoShowing Quitting))) as [H | H].
  - apply reach_step, reach_path.
  - rewrite Q in H. discriminate H.
  - exact (H T).
Defined.

Lemma reachable_zoom_inRange_witness :
  inRange
    (zoomLevel
       (step Reporting demoWorld (Wheel 120)
          (step Reporting demoWorld (KeyPress Key_Right) (demoShowing Reporting))))
  = true.
Proof.
  apply (reachable_zoom_inRange Reporting).
  apply reach_step, reach_step, reach_path.
Defined.

(** ** How the program ends before the window *)


(** ** The one texture and the image *)




